(** * The plugin registry and the permission labels of [ckan/lib/plugins.py]

    A shallow embedding of the module-level registry of [IDatasetForm] and
    [IGroupForm] plugins (the dictionaries [_package_plugins],
    [_group_plugins], [_group_controllers], the three fallback slots, and
    the functions that reset, fill and query them) and of
    [DefaultPermissionLabels].

    The module globals become one record that is threaded through a small
    state-and-exception monad: a Python [raise] leaves the globals as they
    were at the moment of the raise, so a failing computation still returns
    the registry it reached. *)

From stdpp Require Import gmap strings list fin_maps.

Set Default Proof Using "Type".
#[local] Set Warnings "-clear-no-such-hyp".


(** ** Plugins, as the registry sees them *)

(** The [ValueError]s that the registration functions raise, told apart
    by their message. *)
Inductive ValueError : Type :=
  | MoreThanOneFallbackIDatasetForm
  | ExistingIDatasetForm (package_type : string)
  | MoreThanOneFallbackIGroupFormOrganizations
  | MoreThanOneFallbackIGroupFormGroups
  | ExistingIGroupForm (group_type : string).

(** The specification's names for them. *)
Definition DuplicateRegistration (e : ValueError) : bool :=
  match e with
  | ExistingIDatasetForm _ | ExistingIGroupForm _ => true
  | _ => false
  end.

Definition MultipleFallbackError (e : ValueError) : bool :=
  match e with
  | MoreThanOneFallbackIDatasetForm
  | MoreThanOneFallbackIGroupFormOrganizations
  | MoreThanOneFallbackIGroupFormGroups => true
  | _ => false
  end.

(** An extension's [IDatasetForm] implementation: what [is_fallback()] and
    [package_types()] answer, and whether its class derives from
    [DefaultDatasetForm] (which is what [isinstance] looks at). *)
Module IDatasetForm.
Record plugin : Type := {
  name : string;
  is_fallback : bool;
  package_types : list string;
  extends_DefaultDatasetForm : bool
}.
End IDatasetForm.

(** The classes a group plugin may derive from.  [DefaultOrganizationForm]
    is itself a subclass of [DefaultGroupForm]. *)
Inductive group_base : Type :=
  | NoDefaultBase
  | ExtendsDefaultGroupForm
  | ExtendsDefaultOrganizationForm.

(** An extension's [IGroupForm] implementation.  [group_controller] is
    [None] when calling it raises [AttributeError]; [is_organization] is
    [None] when [hasattr(plugin, 'is_organization')] is false. *)
Module IGroupForm.
Record plugin : Type := {
  name : string;
  is_fallback : bool;
  group_types : list string;
  group_controller : option string;
  is_organization : option bool;
  base : group_base
}.
End IGroupForm.

(** What a dataset slot or table row can hold: a registered plugin, or an
    instance made by calling [DefaultDatasetForm()]. *)
Inductive DatasetForm : Type :=
  | DefaultDatasetForm
  | DatasetPlugin (p : IDatasetForm.plugin).

Inductive GroupForm : Type :=
  | DefaultGroupForm
  | DefaultOrganizationForm
  | GroupPlugin (p : IGroupForm.plugin).

Definition isinstance_DefaultDatasetForm (x : DatasetForm) : bool :=
  match x with
  | DefaultDatasetForm => true
  | DatasetPlugin p => IDatasetForm.extends_DefaultDatasetForm p
  end.

Definition isinstance_DefaultGroupForm (x : GroupForm) : bool :=
  match x with
  | DefaultGroupForm | DefaultOrganizationForm => true
  | GroupPlugin p =>
      match IGroupForm.base p with
      | NoDefaultBase => false
      | ExtendsDefaultGroupForm | ExtendsDefaultOrganizationForm => true
      end
  end.

Definition isinstance_DefaultOrganizationForm (x : GroupForm) : bool :=
  match x with
  | DefaultGroupForm => false
  | DefaultOrganizationForm => true
  | GroupPlugin p =>
      match IGroupForm.base p with
      | ExtendsDefaultOrganizationForm => true
      | NoDefaultBase | ExtendsDefaultGroupForm => false
      end
  end.

(** ** The module globals *)

Inductive Blueprint : Type := FlaskBlueprint (name : string).

(** The three default classes whose constructors the module calls. *)
Inductive default_class : Type :=
  | cls_DefaultDatasetForm
  | cls_DefaultGroupForm
  | cls_DefaultOrganizationForm.

(** The seven globals of the module, and [constructed]: the log of the
    calls of a default class's constructor made so far, latest first.  The
    log is not a global of the module; it records the allocations, which
    no assignment to a global undoes. *)
Record registry : Type := {
  _package_plugins : gmap string DatasetForm;
  _default_package_plugin : option DatasetForm;
  _group_plugins : gmap string GroupForm;
  _default_group_plugin : option GroupForm;
  _default_organization_plugin : option GroupForm;
  _group_controllers : gmap string string;
  _group_blueprints : gmap string Blueprint;
  constructed : list default_class
}.

(** The globals when the module has just been imported. *)
Definition initial : registry := {|
  _package_plugins := ∅;
  _default_package_plugin := None;
  _group_plugins := ∅;
  _default_group_plugin := None;
  _default_organization_plugin := None;
  _group_controllers := ∅;
  _group_blueprints := ∅;
  constructed := []
|}.

(** Assignment to one global. *)
Definition write_package_plugins (v : gmap string DatasetForm) (r : registry) : registry :=
  {| _package_plugins := v;
     _default_package_plugin := _default_package_plugin r;
     _group_plugins := _group_plugins r;
     _default_group_plugin := _default_group_plugin r;
     _default_organization_plugin := _default_organization_plugin r;
     _group_controllers := _group_controllers r;
     _group_blueprints := _group_blueprints r;
     constructed := constructed r |}.

Definition write_default_package_plugin (v : option DatasetForm) (r : registry) : registry :=
  {| _package_plugins := _package_plugins r;
     _default_package_plugin := v;
     _group_plugins := _group_plugins r;
     _default_group_plugin := _default_group_plugin r;
     _default_organization_plugin := _default_organization_plugin r;
     _group_controllers := _group_controllers r;
     _group_blueprints := _group_blueprints r;
     constructed := constructed r |}.

Definition write_group_plugins (v : gmap string GroupForm) (r : registry) : registry :=
  {| _package_plugins := _package_plugins r;
     _default_package_plugin := _default_package_plugin r;
     _group_plugins := v;
     _default_group_plugin := _default_group_plugin r;
     _default_organization_plugin := _default_organization_plugin r;
     _group_controllers := _group_controllers r;
     _group_blueprints := _group_blueprints r;
     constructed := constructed r |}.

Definition write_default_group_plugin (v : option GroupForm) (r : registry) : registry :=
  {| _package_plugins := _package_plugins r;
     _default_package_plugin := _default_package_plugin r;
     _group_plugins := _group_plugins r;
     _default_group_plugin := v;
     _default_organization_plugin := _default_organization_plugin r;
     _group_controllers := _group_controllers r;
     _group_blueprints := _group_blueprints r;
     constructed := constructed r |}.

Definition write_default_organization_plugin (v : option GroupForm) (r : registry) : registry :=
  {| _package_plugins := _package_plugins r;
     _default_package_plugin := _default_package_plugin r;
     _group_plugins := _group_plugins r;
     _default_group_plugin := _default_group_plugin r;
     _default_organization_plugin := v;
     _group_controllers := _group_controllers r;
     _group_blueprints := _group_blueprints r;
     constructed := constructed r |}.

Definition write_group_controllers (v : gmap string string) (r : registry) : registry :=
  {| _package_plugins := _package_plugins r;
     _default_package_plugin := _default_package_plugin r;
     _group_plugins := _group_plugins r;
     _default_group_plugin := _default_group_plugin r;
     _default_organization_plugin := _default_organization_plugin r;
     _group_controllers := v;
     _group_blueprints := _group_blueprints r;
     constructed := constructed r |}.

(** A call [cls()] of a default class's constructor. *)
Definition log_constructed (c : default_class) (r : registry) : registry :=
  {| _package_plugins := _package_plugins r;
     _default_package_plugin := _default_package_plugin r;
     _group_plugins := _group_plugins r;
     _default_group_plugin := _default_group_plugin r;
     _default_organization_plugin := _default_organization_plugin r;
     _group_controllers := _group_controllers r;
     _group_blueprints := _group_blueprints r;
     constructed := c :: constructed r |}.

(** ** State and exceptions *)

Inductive outcome (A : Type) : Type :=
  | Return (a : A)
  | Raise (e : ValueError).
Arguments Return {A} a.
Arguments Raise {A} e.

Definition M (A : Type) : Type := registry → outcome A * registry.

Definition ret {A} (a : A) : M A := λ r, (Return a, r).

Definition bind {A B} (m : M A) (k : A → M B) : M B :=
  λ r, match m r with
       | (Return a, r') => k a r'
       | (Raise e, r') => (Raise e, r')
       end.

Definition raise {A} (e : ValueError) : M A := λ r, (Raise e, r).
Definition gets {A} (f : registry → A) : M A := λ r, (Return (f r), r).
Definition modify (f : registry → registry) : M unit := λ r, (Return tt, f r).

Notation "'let!' x ':=' m 'in' k" := (bind m (λ x, k))
  (at level 10, x name, m at level 100, k at level 200).
Notation "m >> k" := (bind m (λ _, k))
  (at level 90, right associativity).

(** [for x in xs: body]; a raise in the body ends the loop. *)
Fixpoint for_in {A} (xs : list A) (body : A → M unit) : M unit :=
  match xs with
  | [] => ret tt
  | x :: xs' => body x >> for_in xs' body
  end.

(** A call [cls()], returning the new instance. *)
Definition new_DefaultDatasetForm : M DatasetForm :=
  modify (log_constructed cls_DefaultDatasetForm) >> ret DefaultDatasetForm.
Definition new_DefaultGroupForm : M GroupForm :=
  modify (log_constructed cls_DefaultGroupForm) >> ret DefaultGroupForm.
Definition new_DefaultOrganizationForm : M GroupForm :=
  modify (log_constructed cls_DefaultOrganizationForm) >> ret DefaultOrganizationForm.

(** ** The functions of the module *)

Definition reset_package_plugins : M unit :=
  modify (write_default_package_plugin None) >>
  modify (write_package_plugins ∅).

Definition reset_group_plugins : M unit :=
  modify (write_default_group_plugin None) >>
  modify (write_default_organization_plugin None) >>
  modify (write_group_plugins ∅) >>
  modify (write_group_controllers ∅).

Definition lookup_package_plugin (package_type : option string) : M (option DatasetForm) :=
  match package_type with
  | None => gets _default_package_plugin
  | Some package_type =>
      let! table := gets _package_plugins in
      let! fallback := gets _default_package_plugin in
      ret (match table !! package_type with
           | Some plugin => Some plugin
           | None => fallback
           end)
  end.

Definition lookup_group_plugin (group_type : option string) : M (option GroupForm) :=
  match group_type with
  | None => gets _default_group_plugin
  | Some group_type =>
      let! table := gets _group_plugins in
      let! fallback :=
        (if String.eqb group_type "organization"
         then gets _default_organization_plugin
         else gets _default_group_plugin) in
      ret (match table !! group_type with
           | Some plugin => Some plugin
           | None => fallback
           end)
  end.

(** [_group_controllers.get(group_type)]: the keys are strings, so the
    key [None] is never found. *)
Definition lookup_group_controller (group_type : option string) : M (option string) :=
  match group_type with
  | None => ret None
  | Some group_type =>
      let! table := gets _group_controllers in
      ret (table !! group_type)
  end.

Definition lookup_group_blueprints (group_type : option string) : M (option Blueprint) :=
  match group_type with
  | None => ret None
  | Some group_type =>
      let! table := gets _group_blueprints in
      ret (table !! group_type)
  end.

Definition set_default_package_plugin : M unit :=
  let! current := gets _default_package_plugin in
  match current with
  | None =>
      let! form := new_DefaultDatasetForm in
      modify (write_default_package_plugin (Some form))
  | Some _ => ret tt
  end.

(** The body of the loop over [plugin.package_types()]. *)
Definition register_package_type (plugin : IDatasetForm.plugin) (package_type : string) : M unit :=
  let! table := gets _package_plugins in
  match table !! package_type with
  | Some _ => raise (ExistingIDatasetForm package_type)
  | None =>
      modify (λ r, write_package_plugins
                     (<[package_type := DatasetPlugin plugin]> (_package_plugins r)) r)
  end.

(** The body of the loop over the [IDatasetForm] implementations. *)
Definition register_package_plugin (plugin : IDatasetForm.plugin) : M unit :=
  (if IDatasetForm.is_fallback plugin then
     let! current := gets _default_package_plugin in
     (if match current with
         | Some form => negb (isinstance_DefaultDatasetForm form)
         | None => false
         end
      then raise MoreThanOneFallbackIDatasetForm
      else ret tt) >>
     modify (write_default_package_plugin (Some (DatasetPlugin plugin)))
   else ret tt) >>
  for_in (IDatasetForm.package_types plugin) (register_package_type plugin).

(** [implementations] is what [plugins.PluginImplementations(plugins.IDatasetForm)]
    iterates over: the active plugins, in load order. *)
Definition register_package_plugins (implementations : list IDatasetForm.plugin) : M unit :=
  for_in implementations register_package_plugin >>
  set_default_package_plugin.

(** [group_controller] and [is_organization] as the loop body computes
    them from the plugin. *)
Definition group_controller_of (plugin : IGroupForm.plugin) : string :=
  match IGroupForm.group_controller plugin with
  | Some controller => controller
  | None => "group"
  end.

Definition is_organization_of (plugin : IGroupForm.plugin) : bool :=
  match IGroupForm.is_organization plugin with
  | Some flag => flag
  | None => String.eqb (group_controller_of plugin) "organization"
  end.

Definition register_group_type (plugin : IGroupForm.plugin) (group_controller : string)
    (group_type : string) : M unit :=
  let! table := gets _group_plugins in
  match table !! group_type with
  | Some _ => raise (ExistingIGroupForm group_type)
  | None =>
      modify (λ r, write_group_plugins
                     (<[group_type := GroupPlugin plugin]> (_group_plugins r)) r) >>
      modify (λ r, write_group_controllers
                     (<[group_type := group_controller]> (_group_controllers r)) r)
  end.

Definition register_group_plugin (plugin : IGroupForm.plugin) : M unit :=
  let group_controller := group_controller_of plugin in
  let is_organization := is_organization_of plugin in
  (if IGroupForm.is_fallback plugin then
     if is_organization then
       let! current := gets _default_organization_plugin in
       (if match current with
           | Some form => negb (isinstance_DefaultOrganizationForm form)
           | None => false
           end
        then raise MoreThanOneFallbackIGroupFormOrganizations
        else ret tt) >>
       modify (write_default_organization_plugin (Some (GroupPlugin plugin)))
     else
       let! current := gets _default_group_plugin in
       (if match current with
           | Some form => negb (isinstance_DefaultGroupForm form)
           | None => false
           end
        then raise MoreThanOneFallbackIGroupFormGroups
        else ret tt) >>
       modify (write_default_group_plugin (Some (GroupPlugin plugin)))
   else ret tt) >>
  for_in (IGroupForm.group_types plugin) (register_group_type plugin group_controller).

Definition set_default_group_plugin : M unit :=
  let! current_group := gets _default_group_plugin in
  (match current_group with
   | None =>
       let! form := new_DefaultGroupForm in
       modify (write_default_group_plugin (Some form))
   | Some _ => ret tt
   end) >>
  let! current_organization := gets _default_organization_plugin in
  (match current_organization with
   | None =>
       let! form := new_DefaultOrganizationForm in
       modify (write_default_organization_plugin (Some form))
   | Some _ => ret tt
   end) >>
  let! controllers := gets _group_controllers in
  (match controllers !! "group" with
   | None => modify (λ r, write_group_controllers
                            (<["group" := "group"]> (_group_controllers r)) r)
   | Some _ => ret tt
   end) >>
  let! controllers := gets _group_controllers in
  match controllers !! "organization" with
  | None => modify (λ r, write_group_controllers
                           (<["organization" := "organization"]> (_group_controllers r)) r)
  | Some _ => ret tt
  end.

Definition register_group_plugins (implementations : list IGroupForm.plugin) : M unit :=
  for_in implementations register_group_plugin >>
  set_default_group_plugin.

(** ** Permission labels *)

(** The fields of a dataset and of a user that [DefaultPermissionLabels]
    reads.  Identifiers are text; [owner_org] may be unset. *)
Module Package.
Record t : Type := {
  id : string;
  state : string;
  private : bool;
  owner_org : option string;
  creator_user_id : string
}.
End Package.

Module User.
Record t : Type := { id : string }.
End User.

(** What [DefaultPermissionLabels] asks of the rest of the application:
    [ckan.authz.check_config_permission('allow_dataset_collaborators')],
    the ids of the organizations that the action
    [organization_list_for_user] returns for a user id with permission
    [read], and the [package_id]s that the action
    [package_collaborator_list_for_user] returns for it. *)
Record site : Type := {
  allow_dataset_collaborators : bool;
  organization_list_for_user : string → list string;
  package_collaborator_list_for_user : string → list string
}.

(** Python's truth value of an optional text field: [None] and the empty
    string are false. *)
Definition truthy (field : option string) : option string :=
  match field with
  | Some text => if String.eqb text EmptyString then None else Some text
  | None => None
  end.

Definition get_dataset_labels (ckan : site) (dataset_obj : Package.t) : list string :=
  if String.eqb (Package.state dataset_obj) "active" && negb (Package.private dataset_obj)
  then ["public"]
  else
    let labels :=
      if allow_dataset_collaborators ckan
      then [String.append "collaborator-" (Package.id dataset_obj)]
      else [] in
    match truthy (Package.owner_org dataset_obj) with
    | Some owner_org => labels ++ [String.append "member-" owner_org]
    | None => labels ++ [String.append "creator-" (Package.creator_user_id dataset_obj)]
    end.

Definition get_user_dataset_labels (ckan : site) (user_obj : option User.t) : list string :=
  let labels := ["public"] in
  match user_obj with
  | None => labels
  | Some user_obj =>
      let labels := labels ++ [String.append "creator-" (User.id user_obj)] in
      let orgs := organization_list_for_user ckan (User.id user_obj) in
      let labels := labels ++ (String.append "member-" <$> orgs) in
      if allow_dataset_collaborators ckan then
        let datasets := package_collaborator_list_for_user ckan (User.id user_obj) in
        labels ++ (String.append "collaborator-" <$> datasets)
      else labels
  end.

(** *** Visibility by inspection of the fields

    These definitions follow the specification's words, not the code: they
    are what the label sets are compared with. *)

Definition is_public (d : Package.t) : Prop :=
  Package.state d = "active" ∧ Package.private d = false.

#[global] Instance is_public_dec d : Decision (is_public d).
Proof. unfold is_public. apply _. Defined.

Definition visible (ckan : site) (actor : option User.t) (d : Package.t) : Prop :=
  is_public d ∨
  ∃ u, actor = Some u ∧
    ((¬ is_public d ∧
      ∃ org, truthy (Package.owner_org d) = Some org ∧
             org ∈ organization_list_for_user ckan (User.id u)) ∨
     (¬ is_public d ∧
      truthy (Package.owner_org d) = None ∧
      Package.creator_user_id d = User.id u) ∨
     (allow_dataset_collaborators ckan = true ∧
      Package.id d ∈ package_collaborator_list_for_user ckan (User.id u))).

Definition labels_intersect (dataset_labels user_labels : list string) : Prop :=
  ∃ label, label ∈ dataset_labels ∧ label ∈ user_labels.

#[global] Instance labels_intersect_dec dl ul : Decision (labels_intersect dl ul).
Proof.
  refine (cast_if (decide (Exists (λ l, l ∈ ul) dl)));
    unfold labels_intersect; rewrite Exists_exists in *; naive_solver.
Defined.

(** ** Auxiliary definitions for the statements and the proofs *)

(** The table after the assignments [m[k] = v] for the keys [keys], in
    order. *)
Definition insert_all {V} (keys : list string) (v : V) (m : gmap string V) : gmap string V :=
  foldl (λ acc k, <[k := v]> acc) m keys.

#[global] Instance default_class_eq_dec : EqDecision default_class.
Proof. solve_decision. Defined.

(** How many times the constructor of the class [c] has been called. *)
Definition constructions (c : default_class) (r : registry) : nat :=
  length (filter (λ x, x = c) (constructed r)).

(** Whether the fallback check of one iteration of the loop over the
    dataset plugins raises: the plugin claims to be the fallback and the
    slot holds a form that is not an instance of [DefaultDatasetForm]. *)
Definition dataset_fallback_conflict (p : IDatasetForm.plugin) (r : registry) : bool :=
  IDatasetForm.is_fallback p &&
  match _default_package_plugin r with
  | Some form => negb (isinstance_DefaultDatasetForm form)
  | None => false
  end.

(** The assignment of the slot by a plugin that claims it. *)
Definition dataset_claim (p : IDatasetForm.plugin) (r : registry) : registry :=
  if IDatasetForm.is_fallback p
  then write_default_package_plugin (Some (DatasetPlugin p)) r
  else r.

(** The same for a group plugin, with the slot and the error of its
    axis. *)
Definition group_fallback_conflict (p : IGroupForm.plugin) (r : registry) : bool :=
  IGroupForm.is_fallback p &&
  if is_organization_of p then
    match _default_organization_plugin r with
    | Some form => negb (isinstance_DefaultOrganizationForm form)
    | None => false
    end
  else
    match _default_group_plugin r with
    | Some form => negb (isinstance_DefaultGroupForm form)
    | None => false
    end.

Definition group_fallback_error (p : IGroupForm.plugin) : ValueError :=
  if is_organization_of p
  then MoreThanOneFallbackIGroupFormOrganizations
  else MoreThanOneFallbackIGroupFormGroups.

Definition group_claim (p : IGroupForm.plugin) (r : registry) : registry :=
  if IGroupForm.is_fallback p then
    if is_organization_of p
    then write_default_organization_plugin (Some (GroupPlugin p)) r
    else write_default_group_plugin (Some (GroupPlugin p)) r
  else r.

(** The registry that [set_default_group_plugin] leaves: it fills what
    is empty. *)
Definition with_default_group_plugins (r : registry) : registry :=
  let r1 :=
    match _default_group_plugin r with
    | None => write_default_group_plugin (Some DefaultGroupForm)
                (log_constructed cls_DefaultGroupForm r)
    | Some _ => r
    end in
  let r2 :=
    match _default_organization_plugin r1 with
    | None => write_default_organization_plugin (Some DefaultOrganizationForm)
                (log_constructed cls_DefaultOrganizationForm r1)
    | Some _ => r1
    end in
  let r3 :=
    match _group_controllers r2 !! "group" with
    | None => write_group_controllers (<["group" := "group"]> (_group_controllers r2)) r2
    | Some _ => r2
    end in
  match _group_controllers r3 !! "organization" with
  | None =>
      write_group_controllers (<["organization" := "organization"]> (_group_controllers r3)) r3
  | Some _ => r3
  end.

(** What a pass over the group plugins [gs] can have done to the
    registry, whether it ended well or not: only the group table, the
    controller table and the two group slots differ; the group table has
    kept its rows, and each new row maps a type to a plugin of the pass
    that declares it; a controller row is the old one or the controller of
    a plugin of the pass that declares the type; a slot is the old one or
    a plugin of the pass that claims that axis. *)
Definition group_frame (gs : list IGroupForm.plugin) (r r' : registry) : Prop :=
  ∃ T C SG SO,
    r' = write_group_controllers C (write_group_plugins T
           (write_default_organization_plugin SO (write_default_group_plugin SG r))) ∧
    _group_plugins r ⊆ T ∧
    (∀ t x, T !! t = Some x →
       _group_plugins r !! t = Some x ∨
       (_group_plugins r !! t = None ∧
        ∃ p, p ∈ gs ∧ t ∈ IGroupForm.group_types p ∧ x = GroupPlugin p)) ∧
    (∀ t, C !! t = _group_controllers r !! t ∨
          ∃ p, p ∈ gs ∧ t ∈ IGroupForm.group_types p ∧ C !! t = Some (group_controller_of p)) ∧
    (SG = _default_group_plugin r ∨
     ∃ p, p ∈ gs ∧ IGroupForm.is_fallback p = true ∧ is_organization_of p = false ∧
          SG = Some (GroupPlugin p)) ∧
    (SO = _default_organization_plugin r ∨
     ∃ p, p ∈ gs ∧ IGroupForm.is_fallback p = true ∧ is_organization_of p = true ∧
          SO = Some (GroupPlugin p)).

(** Whether the slot of an axis ([true]: organizations) is held by a form
    that is not an instance of the axis's default class. *)
Definition axis_occupied (organization : bool) (r : registry) : bool :=
  if organization then
    match _default_organization_plugin r with
    | Some form => negb (isinstance_DefaultOrganizationForm form)
    | None => false
    end
  else
    match _default_group_plugin r with
    | Some form => negb (isinstance_DefaultGroupForm form)
    | None => false
    end.

(** Whether a group plugin is an instance of the default class of the
    axis it registers for. *)
Definition axis_default_instance (p : IGroupForm.plugin) : bool :=
  if is_organization_of p
  then isinstance_DefaultOrganizationForm (GroupPlugin p)
  else isinstance_DefaultGroupForm (GroupPlugin p).

(** ** Example plugins *)

Definition dataset_a : IDatasetForm.plugin :=
  {| IDatasetForm.name := "a"; IDatasetForm.is_fallback := false;
     IDatasetForm.package_types := ["alpha"; "beta"];
     IDatasetForm.extends_DefaultDatasetForm := false |}.

Definition dataset_b : IDatasetForm.plugin :=
  {| IDatasetForm.name := "b"; IDatasetForm.is_fallback := false;
     IDatasetForm.package_types := ["beta"];
     IDatasetForm.extends_DefaultDatasetForm := false |}.

Definition group_a : IGroupForm.plugin :=
  {| IGroupForm.name := "a"; IGroupForm.is_fallback := false;
     IGroupForm.group_types := ["alpha"; "beta"];
     IGroupForm.group_controller := None; IGroupForm.is_organization := None;
     IGroupForm.base := NoDefaultBase |}.

Definition group_b : IGroupForm.plugin :=
  {| IGroupForm.name := "b"; IGroupForm.is_fallback := false;
     IGroupForm.group_types := ["beta"];
     IGroupForm.group_controller := Some "organization"; IGroupForm.is_organization := None;
     IGroupForm.base := NoDefaultBase |}.



Definition dataset_f2 : IDatasetForm.plugin :=
  {| IDatasetForm.name := "f2"; IDatasetForm.is_fallback := true;
     IDatasetForm.package_types := ["gamma"];
     IDatasetForm.extends_DefaultDatasetForm := false |}.

(** A fallback for groups (no [group_controller], no [is_organization]),
    a second one, and a fallback for organizations (by its controller). *)
Definition group_f1 : IGroupForm.plugin :=
  {| IGroupForm.name := "f1"; IGroupForm.is_fallback := true;
     IGroupForm.group_types := ["alpha"];
     IGroupForm.group_controller := None; IGroupForm.is_organization := None;
     IGroupForm.base := NoDefaultBase |}.


Definition organization_f : IGroupForm.plugin :=
  {| IGroupForm.name := "o"; IGroupForm.is_fallback := true;
     IGroupForm.group_types := ["delta"];
     IGroupForm.group_controller := Some "organization"; IGroupForm.is_organization := None;
     IGroupForm.base := NoDefaultBase |}.

(** A fallback plugin whose class derives from [DefaultDatasetForm]. *)
Definition dataset_derived : IDatasetForm.plugin :=
  {| IDatasetForm.name := "derived"; IDatasetForm.is_fallback := true;
     IDatasetForm.package_types := ["alpha"];
     IDatasetForm.extends_DefaultDatasetForm := true |}.

(** A site without collaborators where nobody belongs to an
    organization, a public dataset, a draft owned by an organization, and
    the user who created the draft. *)
Definition plain_site : site :=
  {| allow_dataset_collaborators := false;
     organization_list_for_user := λ _, [];
     package_collaborator_list_for_user := λ _, [] |}.

Definition public_dataset : Package.t :=
  {| Package.id := "d1"; Package.state := "active"; Package.private := false;
     Package.owner_org := None; Package.creator_user_id := "u1" |}.

Definition organization_draft : Package.t :=
  {| Package.id := "d2"; Package.state := "draft"; Package.private := true;
     Package.owner_org := Some "org-1"; Package.creator_user_id := "u1" |}.

Definition user_u1 : User.t := {| User.id := "u1" |}.

(** ** Sequences of lookups, and what a computation depends on *)

(** The three lookups as one kind of call, to speak of sequences of
    lookups. *)
Inductive lookup_call : Type :=
  | call_lookup_package_plugin (package_type : option string)
  | call_lookup_group_plugin (group_type : option string)
  | call_lookup_group_controller (group_type : option string).

Inductive lookup_answer : Type :=
  | answer_package_plugin (plugin : option DatasetForm)
  | answer_group_plugin (plugin : option GroupForm)
  | answer_group_controller (controller : option string).

Definition perform (call : lookup_call) : M lookup_answer :=
  match call with
  | call_lookup_package_plugin package_type =>
      let! plugin := lookup_package_plugin package_type in ret (answer_package_plugin plugin)
  | call_lookup_group_plugin group_type =>
      let! plugin := lookup_group_plugin group_type in ret (answer_group_plugin plugin)
  | call_lookup_group_controller group_type =>
      let! controller := lookup_group_controller group_type in
      ret (answer_group_controller controller)
  end.

(** A computation that returns and leaves the registry as it found it. *)
Definition read_only {A} (m : M A) : Prop := ∀ r, ∃ a, m r = (Return a, r).

(** The globals that registration and the lookups read: all but
    [_group_blueprints]; the log of constructor calls is not among them
    either. *)
Definition agree (r1 r2 : registry) : Prop :=
  _package_plugins r1 = _package_plugins r2 ∧
  _default_package_plugin r1 = _default_package_plugin r2 ∧
  _group_plugins r1 = _group_plugins r2 ∧
  _default_group_plugin r1 = _default_group_plugin r2 ∧
  _default_organization_plugin r1 = _default_organization_plugin r2 ∧
  _group_controllers r1 = _group_controllers r2.

(** A computation whose outcome, and whose effect on those globals,
    depend on those globals only. *)
Definition respects {A} (m : M A) : Prop :=
  ∀ r1 r2, agree r1 r2 → fst (m r1) = fst (m r2) ∧ agree (snd (m r1)) (snd (m r2)).

(** ** Definitions for the further properties *)

(** Whether the dataset slot is held by a form that is not an instance
    of [DefaultDatasetForm]: the condition under which a fallback claim
    raises. *)
Definition dataset_slot_occupied (r : registry) : bool :=
  match _default_package_plugin r with
  | Some form => negb (isinstance_DefaultDatasetForm form)
  | None => false
  end.

(** Whether the fallback claims of a pass are all accepted, when the
    pass starts with the slot occupied or not: each claim needs a slot
    that is not occupied, and leaves it occupied unless the claiming
    plugin derives from [DefaultDatasetForm]. *)
Fixpoint dataset_claims_accepted (occupied : bool) (ps : list IDatasetForm.plugin) : bool :=
  match ps with
  | [] => true
  | p :: ps' =>
      if IDatasetForm.is_fallback p
      then negb occupied &&
           dataset_claims_accepted (negb (IDatasetForm.extends_DefaultDatasetForm p)) ps'
      else dataset_claims_accepted occupied ps'
  end.

(** The plugins of a pass that claim the dataset fallback, in order. *)
Definition dataset_claimants (ps : list IDatasetForm.plugin) : list IDatasetForm.plugin :=
  filter (λ p, IDatasetForm.is_fallback p = true) ps.

(** The same for the group plugins, whose claims go to the slot of the
    groups or to the slot of the organizations. *)
Fixpoint group_claims_accepted (group_occupied organization_occupied : bool)
    (gs : list IGroupForm.plugin) : bool :=
  match gs with
  | [] => true
  | p :: gs' =>
      if IGroupForm.is_fallback p then
        if is_organization_of p
        then negb organization_occupied &&
             group_claims_accepted group_occupied (negb (axis_default_instance p)) gs'
        else negb group_occupied &&
             group_claims_accepted (negb (axis_default_instance p)) organization_occupied gs'
      else group_claims_accepted group_occupied organization_occupied gs'
  end.

(** The plugins of a pass that claim the fallback of an axis ([true]:
    organizations), in order. *)
Definition group_claimants (organization : bool) (gs : list IGroupForm.plugin) :
    list IGroupForm.plugin :=
  filter (λ p, IGroupForm.is_fallback p = true ∧ is_organization_of p = organization) gs.

(** ** The states the module can reach *)

(** The functions of the module that write the globals. *)
Inductive operation : Type :=
  | call_reset_package_plugins
  | call_reset_group_plugins
  | call_register_package_plugins (implementations : list IDatasetForm.plugin)
  | call_register_group_plugins (implementations : list IGroupForm.plugin)
  | call_set_default_package_plugin
  | call_set_default_group_plugin.

Definition run (op : operation) : M unit :=
  match op with
  | call_reset_package_plugins => reset_package_plugins
  | call_reset_group_plugins => reset_group_plugins
  | call_register_package_plugins implementations => register_package_plugins implementations
  | call_register_group_plugins implementations => register_group_plugins implementations
  | call_set_default_package_plugin => set_default_package_plugin
  | call_set_default_group_plugin => set_default_group_plugin
  end.

(** The registries that calls of these functions, in any order and
    whether they return or raise, lead to from the one of a process that
    has just started. *)
Inductive reachable : registry → Prop :=
  | reachable_initial : reachable initial
  | reachable_step op r : reachable r → reachable (snd (run op r)).

(** What holds of every such registry. *)
Record consistent (r : registry) : Prop := {
  package_rows : ∀ t x, _package_plugins r !! t = Some x →
    ∃ p, x = DatasetPlugin p ∧ t ∈ IDatasetForm.package_types p;
  package_fallback : ∀ x, _default_package_plugin r = Some x →
    x = DefaultDatasetForm ∨ ∃ p, x = DatasetPlugin p ∧ IDatasetForm.is_fallback p = true;
  group_rows : ∀ t x, _group_plugins r !! t = Some x →
    ∃ p, x = GroupPlugin p ∧ t ∈ IGroupForm.group_types p ∧
         _group_controllers r !! t = Some (group_controller_of p);
  group_fallback : ∀ x, _default_group_plugin r = Some x →
    x = DefaultGroupForm ∨
    ∃ p, x = GroupPlugin p ∧ IGroupForm.is_fallback p = true ∧ is_organization_of p = false;
  organization_fallback : ∀ x, _default_organization_plugin r = Some x →
    x = DefaultOrganizationForm ∨
    ∃ p, x = GroupPlugin p ∧ IGroupForm.is_fallback p = true ∧ is_organization_of p = true;
  controller_rows : ∀ t c, _group_controllers r !! t = Some c →
    (∃ p, _group_plugins r !! t = Some (GroupPlugin p) ∧ c = group_controller_of p) ∨
    (_group_plugins r !! t = None ∧ c = t ∧ (t = "group" ∨ t = "organization"));
  no_blueprints : _group_blueprints r = ∅
}.

(** The same site with the collaborator feature switched on or off. *)
Definition with_collaborators (enabled : bool) (ckan : site) : site :=
  {| allow_dataset_collaborators := enabled;
     organization_list_for_user := organization_list_for_user ckan;
     package_collaborator_list_for_user := package_collaborator_list_for_user ckan |}.

(** ** [DefaultTranslation] *)

(** [s.split(sep)] for a separator [sep] of one character: the pieces
    between the occurrences of the separator, one more than there are
    occurrences. *)
Fixpoint str_split (sep : Ascii.ascii) (s : string) : list string :=
  match s with
  | EmptyString => [EmptyString]
  | String c s' =>
      if Ascii.eqb c sep then EmptyString :: str_split sep s'
      else match str_split sep s' with
           | piece :: pieces => String c piece :: pieces
           | [] => [String c EmptyString]
           end
  end.

(** [sep.join(pieces)]. *)
Fixpoint str_join (sep : string) (pieces : list string) : string :=
  match pieces with
  | [] => EmptyString
  | piece :: rest =>
      match rest with
      | [] => piece
      | _ :: _ => String.append piece (String.append sep (str_join sep rest))
      end
  end.

(** The character ['.']. *)
Definition dot : Ascii.ascii := Ascii.Ascii false true true true false true false false.

(** ['.'.join(self.__module__.split('.')[:3])]. *)
Definition extension_module_name (module_name : string) : string :=
  str_join "." (take 3 (str_split dot module_name)).

(** [i18n_directory]: [sys_modules] maps the name of an imported module
    to its [__file__]; a name that is not imported is a [KeyError],
    here [None].  [dirname] and [path_join] are [os.path.dirname] and
    [os.path.join]. *)
Definition i18n_directory (sys_modules : gmap string string)
    (dirname : string → string) (path_join : string → string → string)
    (module_name : string) : option string :=
  match sys_modules !! extension_module_name module_name with
  | Some file => Some (path_join (dirname file) "i18n")
  | None => None
  end.

(** Whether a character occurs in a string. *)
Fixpoint occurs (c : Ascii.ascii) (s : string) : bool :=
  match s with
  | EmptyString => false
  | String c' s' => Ascii.eqb c' c || occurs c s'
  end.

(** * Properties *)

(** ** Permission labels *)

Section PermissionLabels.

Context (ckan : site).

Lemma is_public_test d :
  String.eqb (Package.state d) "active" && negb (Package.private d) = bool_decide (is_public d).
Proof.
  symmetry. destruct (String.eqb_spec (Package.state d) "active") as [Heq|Hne];
    destruct (Package.private d) eqn:Hprivate; simpl.
  - apply bool_decide_eq_false. unfold is_public. intros [_ ?]. congruence.
  - apply bool_decide_eq_true. done.
  - apply bool_decide_eq_false. unfold is_public. intros [? _]. done.
  - apply bool_decide_eq_false. unfold is_public. intros [? _]. done.
Qed.

(** The three prefixes and ["public"] never produce the same label, and
    formatting an identifier after a prefix loses nothing. *)
Ltac labels := simpl in *; simplify_eq; try done.

Lemma elem_of_dataset_labels d label :
  label ∈ get_dataset_labels ckan d ↔
  (is_public d ∧ label = "public") ∨
  (¬ is_public d ∧
   ((allow_dataset_collaborators ckan = true ∧
     label = String.append "collaborator-" (Package.id d)) ∨
    (∃ org, truthy (Package.owner_org d) = Some org ∧ label = String.append "member-" org) ∨
    (truthy (Package.owner_org d) = None ∧
     label = String.append "creator-" (Package.creator_user_id d)))).
Proof.
  unfold get_dataset_labels. rewrite is_public_test.
  case_bool_decide as Hpub.
  - rewrite list_elem_of_singleton. naive_solver.
  - destruct (allow_dataset_collaborators ckan), (truthy (Package.owner_org d)) as [org|];
      rewrite ?elem_of_app, ?list_elem_of_singleton, ?elem_of_nil; naive_solver.
Qed.

Lemma elem_of_user_labels u label :
  label ∈ get_user_dataset_labels ckan (Some u) ↔
  label = "public" ∨
  label = String.append "creator-" (User.id u) ∨
  (∃ org, org ∈ organization_list_for_user ckan (User.id u) ∧
          label = String.append "member-" org) ∨
  (allow_dataset_collaborators ckan = true ∧
   ∃ dataset, dataset ∈ package_collaborator_list_for_user ckan (User.id u) ∧
              label = String.append "collaborator-" dataset).
Proof.
  unfold get_user_dataset_labels.
  destruct (allow_dataset_collaborators ckan);
    rewrite ?elem_of_app, ?list_elem_of_fmap, ?list_elem_of_singleton; naive_solver.
Qed.

(** C3: [get_dataset_labels] returns exactly [["public"]] for an active
    dataset that is not private; for any other dataset it returns the
    label ["collaborator-<id>"] when (and only when) the collaborator
    feature is enabled, followed by exactly one more label:
    ["member-<owner_org>"] when the dataset has an owning organization and
    ["creator-<creator_user_id>"] when it has none.  No result holds both a
    member label and a creator label. *)
Theorem get_dataset_labels_cases (d : Package.t) :
  get_dataset_labels ckan d =
    (if decide (is_public d) then ["public"]
     else
       (if allow_dataset_collaborators ckan
        then [String.append "collaborator-" (Package.id d)] else []) ++
       [match truthy (Package.owner_org d) with
        | Some org => String.append "member-" org
        | None => String.append "creator-" (Package.creator_user_id d)
        end]) ∧
  ¬ (∃ org creator,
        String.append "member-" org ∈ get_dataset_labels ckan d ∧
        String.append "creator-" creator ∈ get_dataset_labels ckan d).
Proof.
  split.
  - unfold get_dataset_labels. rewrite is_public_test.
    destruct (decide (is_public d)) as [Hpub|Hpriv].
    + by rewrite bool_decide_eq_true_2.
    + rewrite bool_decide_eq_false_2 by done.
      by destruct (truthy (Package.owner_org d)).
  - intros (org & creator & Hm & Hc).
    apply elem_of_dataset_labels in Hm, Hc.
    destruct Hm as [[_ ?]|[_ [[_ ?]|[(o & Ho & ?)|[Hnone ?]]]]]; labels.
    destruct Hc as [[_ ?]|[_ [[_ ?]|[(o' & Ho' & ?)|[Hnone ?]]]]]; labels.
Qed.

(** C4: [get_user_dataset_labels] returns exactly [["public"]] for the
    anonymous actor; for a user it returns ["public"], then
    ["creator-<id>"], then ["member-<org>"] for every organization the user
    may read, and, only when the collaborator feature is enabled,
    ["collaborator-<dataset>"] for every dataset the user collaborates
    on. *)
Theorem get_user_dataset_labels_cases :
  get_user_dataset_labels ckan None = ["public"] ∧
  ∀ u : User.t,
    get_user_dataset_labels ckan (Some u) =
      "public" :: String.append "creator-" (User.id u) ::
      (String.append "member-" <$> organization_list_for_user ckan (User.id u)) ++
      (if allow_dataset_collaborators ckan
       then String.append "collaborator-" <$>
              package_collaborator_list_for_user ckan (User.id u)
       else []).
Proof.
  split; [done|]. intros u. unfold get_user_dataset_labels.
  destruct (allow_dataset_collaborators ckan); simpl; [done|].
  by rewrite app_nil_r.
Qed.

(** C2: a dataset is visible to an actor by inspection of the fields
    exactly when the dataset's labels and the actor's labels have a label
    in common. *)
Theorem visible_iff_labels_intersect (actor : option User.t) (d : Package.t) :
  visible ckan actor d ↔
  labels_intersect (get_dataset_labels ckan d) (get_user_dataset_labels ckan actor).
Proof.
  unfold visible, labels_intersect. split.
  - intros [Hpub|(u & -> & Hu)].
    + exists "public". split.
      * apply elem_of_dataset_labels. auto.
      * destruct actor; [apply elem_of_user_labels; auto | apply list_elem_of_singleton; done].
    + destruct (decide (is_public d)) as [Hpub|Hpriv].
      { exists "public". split; [apply elem_of_dataset_labels | apply elem_of_user_labels]; auto. }
      destruct Hu as [(_ & org & Horg & Hin)|[(_ & Hnone & Hcreator)|(Hallow & Hin)]].
      * exists (String.append "member-" org).
        split; [apply elem_of_dataset_labels | apply elem_of_user_labels]; naive_solver.
      * exists (String.append "creator-" (Package.creator_user_id d)).
        split; [apply elem_of_dataset_labels; naive_solver|].
        apply elem_of_user_labels. rewrite Hcreator. auto.
      * exists (String.append "collaborator-" (Package.id d)).
        split; [apply elem_of_dataset_labels | apply elem_of_user_labels]; naive_solver.
  - intros (label & Hd & Hu).
    apply elem_of_dataset_labels in Hd.
    destruct Hd as [[Hpub _]|[Hpriv Hd]]; [by left|]. right.
    destruct actor as [u|].
    + exists u. split; [done|].
      apply elem_of_user_labels in Hu.
      destruct Hd as [[Hallow ->]|[(org & Horg & ->)|[Hnone ->]]];
        destruct Hu as [?|[?|[(org' & Hin & ?)|(Hallow' & ds & Hin & ?)]]]; labels.
      * right; right. done.
      * left. split; [done|]. by exists org'.
      * right; left. done.
    + apply list_elem_of_singleton in Hu. subst label.
      destruct Hd as [[_ ?]|[(org & _ & ?)|[_ ?]]]; labels.
Qed.

End PermissionLabels.

(** A public dataset has the one label ["public"], which the anonymous
    actor has too. *)
Example public_dataset_labels :
  get_dataset_labels plain_site public_dataset = ["public"] ∧
  get_user_dataset_labels plain_site None = ["public"] ∧
  visible plain_site None public_dataset.
Proof. split; [reflexivity|]. split; [reflexivity|]. by left. Qed.

(** A draft owned by an organization is labelled by the organization,
    not by its creator: without collaborators, a creator who is not a
    member of the organization does not see it. *)
Example organization_draft_labels :
  get_dataset_labels plain_site organization_draft = ["member-org-1"] ∧
  get_user_dataset_labels plain_site (Some user_u1) = ["public"; "creator-u1"] ∧
  ¬ labels_intersect (get_dataset_labels plain_site organization_draft)
                     (get_user_dataset_labels plain_site (Some user_u1)) ∧
  ¬ visible plain_site (Some user_u1) organization_draft.
Proof.
  split; [reflexivity|]. split; [reflexivity|].
  assert (¬ labels_intersect (get_dataset_labels plain_site organization_draft)
                             (get_user_dataset_labels plain_site (Some user_u1))) as Hno.
  { intros (label & Hd & Hu). simpl in Hd, Hu. set_unfold.
    destruct Hd as [->|[]]. destruct Hu as [?|[?|[]]]; discriminate. }
  split; [exact Hno|]. by rewrite visible_iff_labels_intersect.
Qed.

(** ** The monad and the assignments *)

Lemma for_in_cons {A} (body : A → M unit) x xs r :
  for_in (x :: xs) body r =
  match body x r with
  | (Return _, r') => for_in xs body r'
  | (Raise e, r') => (Raise e, r')
  end.
Proof. reflexivity. Qed.

Lemma for_in_app {A} (body : A → M unit) xs ys r :
  for_in (xs ++ ys) body r =
  match for_in xs body r with
  | (Return _, r') => for_in ys body r'
  | (Raise e, r') => (Raise e, r')
  end.
Proof.
  revert r. induction xs as [|x xs IH]; intros r; [done|].
  rewrite <- app_comm_cons, !for_in_cons.
  destruct (body x r) as [[[]|e] r1]; [apply IH | done].
Qed.

Lemma write_package_plugins_id r : write_package_plugins (_package_plugins r) r = r.
Proof. by destruct r. Qed.

Lemma write_default_package_plugin_id r :
  write_default_package_plugin (_default_package_plugin r) r = r.
Proof. by destruct r. Qed.

Lemma lookup_insert_all {V} (keys : list string) (v : V) (m : gmap string V) k :
  insert_all keys v m !! k = if decide (k ∈ keys) then Some v else m !! k.
Proof.
  unfold insert_all. revert m. induction keys as [|a keys IH]; intros m; cbn [foldl].
  - case_decide as Hin; [by apply elem_of_nil in Hin | done].
  - rewrite IH. clear IH. repeat case_decide; try done.
    + exfalso. set_solver.
    + assert (k = a) as -> by set_solver. by rewrite lookup_insert_eq.
    + rewrite lookup_insert_ne; [done|]. set_solver.
Qed.

Lemma insert_all_subseteq {V} (keys : list string) (v : V) (m : gmap string V) :
  (∀ k, k ∈ keys → m !! k = None) → m ⊆ insert_all keys v m.
Proof.
  intros Hfresh. apply map_subseteq_spec. intros k x Hk.
  rewrite lookup_insert_all. destruct (decide (k ∈ keys)) as [Hin|]; [|done].
  rewrite Hfresh in Hk by done. done.
Qed.

(** ** Registration of dataset plugins *)

(** The loop over one plugin's [package_types()]: it inserts the types of
    a duplicate-free prefix [pre], and stops with the error at the first
    type that is already a key, or goes through. *)
Lemma register_package_types_spec p types r :
  (NoDup types ∧ (∀ t, t ∈ types → _package_plugins r !! t = None) ∧
   for_in types (register_package_type p) r =
     (Return tt,
      write_package_plugins (insert_all types (DatasetPlugin p) (_package_plugins r)) r)) ∨
  (∃ pre t post,
     types = pre ++ t :: post ∧ NoDup pre ∧
     (∀ x, x ∈ pre → _package_plugins r !! x = None) ∧
     (t ∈ pre ∨ is_Some (_package_plugins r !! t)) ∧
     for_in types (register_package_type p) r =
       (Raise (ExistingIDatasetForm t),
        write_package_plugins (insert_all pre (DatasetPlugin p) (_package_plugins r)) r)).
Proof.
  revert r. induction types as [|a types IH]; intros r.
  - left. split; [constructor|]. split; [by intros ? ?%elem_of_nil|].
    simpl. unfold ret. by rewrite write_package_plugins_id.
  - rewrite for_in_cons. unfold register_package_type at 1 3. unfold bind, gets.
    destruct (_package_plugins r !! a) as [x|] eqn:Ha.
    + right. exists [], a, types. simpl. rewrite write_package_plugins_id.
      repeat split; eauto using NoDup_nil_2. by intros ? ?%elem_of_nil.
    + unfold modify.
      set (r1 := write_package_plugins _ r).
      destruct (IH r1) as [(Hnd & Hfresh & ->)|(pre & t & post & -> & Hnd & Hfresh & Ht & ->)].
      * left. subst r1; simpl in *.
        assert (a ∉ types) as Hnotin.
        { intros Hin. specialize (Hfresh _ Hin). by rewrite lookup_insert_eq in Hfresh. }
        split; [by constructor|]. split; [|done].
        intros t [->|Hin]%elem_of_cons; [done|].
        specialize (Hfresh _ Hin). rewrite lookup_insert_ne in Hfresh; [done|].
        intros ->. done.
      * right. exists (a :: pre), t, post. subst r1; simpl in *.
        assert (a ∉ pre) as Hnotin.
        { intros Hin. specialize (Hfresh _ Hin). by rewrite lookup_insert_eq in Hfresh. }
        split; [done|]. split; [by constructor|]. split; [|split; [|done]].
        -- intros x [->|Hin]%elem_of_cons; [done|].
           specialize (Hfresh _ Hin). rewrite lookup_insert_ne in Hfresh; [done|].
           intros ->. done.
        -- destruct Ht as [Hin|Hsome]; [left; by right|].
           destruct (decide (a = t)) as [->|Hne]; [left; by left|].
           right. by rewrite lookup_insert_ne in Hsome.
Qed.

(** One iteration of the loop over the plugins: the fallback check comes
    first and leaves the registry alone when it raises; otherwise the
    types are inserted, after the slot was assigned. *)
Lemma register_package_plugin_eq p r :
  register_package_plugin p r =
  if dataset_fallback_conflict p r
  then (Raise MoreThanOneFallbackIDatasetForm, r)
  else for_in (IDatasetForm.package_types p) (register_package_type p) (dataset_claim p r).
Proof.
  unfold register_package_plugin, dataset_fallback_conflict, dataset_claim, bind, gets.
  destruct (IDatasetForm.is_fallback p); simpl; [|done].
  destruct (_default_package_plugin r) as [form|]; simpl; [|done].
  by destruct (isinstance_DefaultDatasetForm form).
Qed.

Lemma dataset_claim_table p r : _package_plugins (dataset_claim p r) = _package_plugins r.
Proof. unfold dataset_claim. by destruct (IDatasetForm.is_fallback p). Qed.

(** The three ways one iteration can end. *)
Lemma register_package_plugin_cases p r :
  (dataset_fallback_conflict p r = true ∧
   register_package_plugin p r = (Raise MoreThanOneFallbackIDatasetForm, r)) ∨
  (dataset_fallback_conflict p r = false ∧
   NoDup (IDatasetForm.package_types p) ∧
   (∀ t, t ∈ IDatasetForm.package_types p → _package_plugins r !! t = None) ∧
   register_package_plugin p r =
     (Return tt,
      write_package_plugins
        (insert_all (IDatasetForm.package_types p) (DatasetPlugin p) (_package_plugins r))
        (dataset_claim p r))) ∨
  (dataset_fallback_conflict p r = false ∧
   ∃ pre t post,
     IDatasetForm.package_types p = pre ++ t :: post ∧ NoDup pre ∧
     (∀ x, x ∈ pre → _package_plugins r !! x = None) ∧
     (t ∈ pre ∨ is_Some (_package_plugins r !! t)) ∧
     register_package_plugin p r =
       (Raise (ExistingIDatasetForm t),
        write_package_plugins (insert_all pre (DatasetPlugin p) (_package_plugins r))
          (dataset_claim p r))).
Proof.
  rewrite register_package_plugin_eq.
  destruct (dataset_fallback_conflict p r); [by left|right].
  destruct (register_package_types_spec p (IDatasetForm.package_types p) (dataset_claim p r))
    as [(Hnd & Hfresh & Heq)|(pre & t & post & Hsplit & Hnd & Hfresh & Ht & Heq)];
    rewrite dataset_claim_table in *; naive_solver.
Qed.

(** Whatever the outcome of the loop over the plugins, the registry it
    leaves differs from the one it started from in the dataset table and
    the dataset slot only; the table has kept every row it had, and each
    new row maps a type to a plugin of the pass that declares it; the slot
    is the old one or a plugin of the pass that claims to be the
    fallback. *)
Lemma register_package_loop_frame ps r o r' :
  for_in ps register_package_plugin r = (o, r') →
  ∃ T S,
    r' = write_package_plugins T (write_default_package_plugin S r) ∧
    _package_plugins r ⊆ T ∧
    (∀ t x, T !! t = Some x →
       _package_plugins r !! t = Some x ∨
       (_package_plugins r !! t = None ∧
        ∃ p, p ∈ ps ∧ t ∈ IDatasetForm.package_types p ∧ x = DatasetPlugin p)) ∧
    (S = _default_package_plugin r ∨
     ∃ p, p ∈ ps ∧ IDatasetForm.is_fallback p = true ∧ S = Some (DatasetPlugin p)).
Proof.
  revert r. induction ps as [|h ps IH]; intros r Hrun.
  - simpl in Hrun. unfold ret in Hrun. injection Hrun as <- <-.
    exists (_package_plugins r), (_default_package_plugin r).
    split; [by destruct r|]. split; [done|]. split; [|by left]. intros t x Ht. by left.
  - rewrite for_in_cons in Hrun.
    assert (∃ pre, (∀ x, x ∈ pre → x ∈ IDatasetForm.package_types h) ∧
                   (∀ x, x ∈ pre → _package_plugins r !! x = None) ∧
                   snd (register_package_plugin h r) =
                     write_package_plugins
                       (insert_all pre (DatasetPlugin h) (_package_plugins r))
                       (dataset_claim h r) ∨
                   register_package_plugin h r = (Raise MoreThanOneFallbackIDatasetForm, r))
      as Hstep.
    { destruct (register_package_plugin_cases h r)
        as [[_ ->]|[(_ & _ & Hfresh & ->)|(_ & pre & t & post & Hsplit & _ & Hfresh & _ & ->)]].
      - exists []. by right.
      - exists (IDatasetForm.package_types h). left. done.
      - exists pre. left. split; [|done]. intros x Hx. rewrite Hsplit. set_solver. }
    destruct Hstep as [pre [(Hpre & Hfresh & Hsnd)|Hmulti]].
    2:{ rewrite Hmulti in Hrun. injection Hrun as <- <-.
        exists (_package_plugins r), (_default_package_plugin r).
        split; [by destruct r|]. split; [done|]. split; [|by left]. intros t x Ht. by left. }
    set (r1 := write_package_plugins _ (dataset_claim h r)) in Hsnd.
    assert (∃ T S, r' = write_package_plugins T (write_default_package_plugin S r1) ∧
              _package_plugins r1 ⊆ T ∧
              (∀ t x, T !! t = Some x →
                 _package_plugins r1 !! t = Some x ∨
                 (_package_plugins r1 !! t = None ∧
                  ∃ p, p ∈ ps ∧ t ∈ IDatasetForm.package_types p ∧ x = DatasetPlugin p)) ∧
              (S = _default_package_plugin r1 ∨
               ∃ p, p ∈ ps ∧ IDatasetForm.is_fallback p = true ∧ S = Some (DatasetPlugin p)))
      as (T & S & -> & Hsub & Hrows & Hslot).
    { destruct (register_package_plugin h r) as [[[]|e] r2]; simpl in Hsnd; subst r2.
      - by apply IH.
      - injection Hrun as <- <-.
        exists (_package_plugins r1), (_default_package_plugin r1).
        split; [done|]. split; [done|]. split; [|by left]. intros t x Ht. by left. }
    exists T, S. split.
    { subst r1. unfold dataset_claim. by destruct (IDatasetForm.is_fallback h). }
    assert (_package_plugins r1 = insert_all pre (DatasetPlugin h) (_package_plugins r)) as Htable
      by done.
    assert (_default_package_plugin r1 = _default_package_plugin (dataset_claim h r)) as Hdefault
      by done.
    rewrite Htable in Hsub, Hrows. rewrite Hdefault in Hslot. clear Htable Hdefault Hsnd.
    split; [|split].
    + etrans; [|exact Hsub]. by apply insert_all_subseteq.
    + intros t x Ht. destruct (Hrows t x Ht) as [Hold|(Hnone & p & Hp & Htp & ->)].
      * rewrite lookup_insert_all in Hold. case_decide as Hin; [|by left].
        right. split; [by apply Hfresh|]. simplify_eq.
        exists h. split; [by left|]. split; [by apply Hpre|done].
      * rewrite lookup_insert_all in Hnone. case_decide; [done|].
        right. split; [done|]. exists p. split; [by right|done].
    + destruct Hslot as [->|(p & Hp & Hfb & ->)].
      * unfold dataset_claim. destruct (IDatasetForm.is_fallback h) eqn:Hfb; [|by left].
        right. exists h. split; [by left|done].
      * right. exists p. split; [by right|done].
Qed.

Lemma register_package_plugins_eq ps r :
  register_package_plugins ps r =
  match for_in ps register_package_plugin r with
  | (Return _, r1) =>
      (Return tt,
       match _default_package_plugin r1 with
       | None => write_default_package_plugin (Some DefaultDatasetForm)
                   (log_constructed cls_DefaultDatasetForm r1)
       | Some _ => r1
       end)
  | (Raise e, r1) => (Raise e, r1)
  end.
Proof.
  unfold register_package_plugins, bind.
  destruct (for_in ps register_package_plugin r) as [[[]|e] r1]; [|done].
  unfold set_default_package_plugin, bind, gets.
  by destruct (_default_package_plugin r1).
Qed.

(** Two distinct positions of a list: one comes first. *)
Lemma two_positions_split {A} (l : list A) i j x y :
  i ≠ j → l !! i = Some x → l !! j = Some y →
  ∃ l1 l2 a b, l = l1 ++ a :: l2 ∧ b ∈ l2 ∧ ((a = x ∧ b = y) ∨ (a = y ∧ b = x)).
Proof.
  assert (∀ i j x y, i < j → l !! i = Some x → l !! j = Some y →
            ∃ l1 l2, l = l1 ++ x :: l2 ∧ y ∈ l2) as Hlt.
  { clear. intros i j x y Hij Hi Hj.
    exists (take i l), (drop (S i) l). split; [by rewrite take_drop_middle|].
    apply list_elem_of_lookup. exists (j - S i).
    rewrite lookup_drop. replace (S i + (j - S i)) with j by lia. done. }
  intros Hne Hi Hj. destruct (decide (i < j)) as [Hij|Hji].
  - destruct (Hlt i j x y Hij Hi Hj) as (l1 & l2 & ? & ?). exists l1, l2, x, y. auto.
  - destruct (Hlt j i y x ltac:(lia) Hj Hi) as (l1 & l2 & ? & ?). exists l1, l2, y, x. auto.
Qed.

(** A type of a plugin of the pass that is already a key makes the pass
    raise. *)
Lemma register_package_loop_collision ps r p t :
  p ∈ ps → t ∈ IDatasetForm.package_types p → is_Some (_package_plugins r !! t) →
  ∃ e r', for_in ps register_package_plugin r = (Raise e, r').
Proof.
  revert r. induction ps as [|h ps IH]; intros r Hp Ht Hsome; [by apply elem_of_nil in Hp|].
  rewrite for_in_cons.
  destruct (register_package_plugin_cases h r)
    as [[_ ->]|[(_ & _ & Hfresh & ->)|(_ & pre & t' & post & _ & _ & _ & _ & ->)]]; eauto.
  apply elem_of_cons in Hp as [->|Hp].
  - rewrite (Hfresh t Ht) in Hsome. by destruct Hsome.
  - apply IH; [done..|]. simpl. rewrite lookup_insert_all. by case_decide.
Qed.

Lemma register_package_loop_duplicate l1 p l2 q t r :
  q ∈ l2 → t ∈ IDatasetForm.package_types p → t ∈ IDatasetForm.package_types q →
  ∃ e r', for_in (l1 ++ p :: l2) register_package_plugin r = (Raise e, r').
Proof.
  intros Hq Htp Htq. rewrite for_in_app.
  destruct (for_in l1 register_package_plugin r) as [[[]|e] r1]; [|eauto].
  rewrite for_in_cons.
  destruct (register_package_plugin_cases p r1)
    as [[_ ->]|[(_ & _ & Hfresh & ->)|(_ & pre & t' & post & _ & _ & _ & _ & ->)]]; eauto.
  apply (register_package_loop_collision l2 _ q t); [done..|].
  simpl. rewrite lookup_insert_all. by rewrite decide_True.
Qed.

(** Without a plugin that claims to be the fallback, the only error is
    the duplicate type. *)
Lemma register_package_loop_no_claim ps r e r' :
  (∀ p, p ∈ ps → IDatasetForm.is_fallback p = false) →
  for_in ps register_package_plugin r = (Raise e, r') →
  ∃ t, e = ExistingIDatasetForm t.
Proof.
  revert r. induction ps as [|h ps IH]; intros r Hnone Hrun; [done|].
  rewrite for_in_cons in Hrun.
  destruct (register_package_plugin_cases h r)
    as [[Hc Heq]|[(_ & _ & _ & Heq)|(_ & pre & t' & post & _ & _ & _ & _ & Heq)]];
    rewrite Heq in Hrun.
  - unfold dataset_fallback_conflict in Hc. rewrite Hnone in Hc by left. done.
  - eapply IH; [|done]. intros p Hp. apply Hnone. by right.
  - simplify_eq. eauto.
Qed.




(** ** Registration of group plugins *)

Lemma write_group_tables_id r :
  write_group_controllers (_group_controllers r) (write_group_plugins (_group_plugins r) r) = r.
Proof. by destruct r. Qed.

Lemma register_group_types_spec p c types r :
  (NoDup types ∧ (∀ t, t ∈ types → _group_plugins r !! t = None) ∧
   for_in types (register_group_type p c) r =
     (Return tt,
      write_group_controllers (insert_all types c (_group_controllers r))
        (write_group_plugins (insert_all types (GroupPlugin p) (_group_plugins r)) r))) ∨
  (∃ pre t post,
     types = pre ++ t :: post ∧ NoDup pre ∧
     (∀ x, x ∈ pre → _group_plugins r !! x = None) ∧
     (t ∈ pre ∨ is_Some (_group_plugins r !! t)) ∧
     for_in types (register_group_type p c) r =
       (Raise (ExistingIGroupForm t),
        write_group_controllers (insert_all pre c (_group_controllers r))
          (write_group_plugins (insert_all pre (GroupPlugin p) (_group_plugins r)) r))).
Proof.
  revert r. induction types as [|a types IH]; intros r.
  - left. split; [constructor|]. split; [by intros ? ?%elem_of_nil|].
    simpl. unfold ret. by rewrite write_group_tables_id.
  - rewrite for_in_cons. unfold register_group_type at 1 3. unfold bind, gets.
    destruct (_group_plugins r !! a) as [x|] eqn:Ha.
    + right. exists [], a, types. simpl. rewrite write_group_tables_id.
      repeat split; eauto using NoDup_nil_2. by intros ? ?%elem_of_nil.
    + unfold modify.
      set (r1 := write_group_controllers _ (write_group_plugins _ r)).
      destruct (IH r1) as [(Hnd & Hfresh & ->)|(pre & t & post & -> & Hnd & Hfresh & Ht & ->)].
      * left. subst r1; simpl in *.
        assert (a ∉ types) as Hnotin.
        { intros Hin. specialize (Hfresh _ Hin). by rewrite lookup_insert_eq in Hfresh. }
        split; [by constructor|]. split; [|done].
        intros t [->|Hin]%elem_of_cons; [done|].
        specialize (Hfresh _ Hin). rewrite lookup_insert_ne in Hfresh; [done|].
        intros ->. done.
      * right. exists (a :: pre), t, post. subst r1; simpl in *.
        assert (a ∉ pre) as Hnotin.
        { intros Hin. specialize (Hfresh _ Hin). by rewrite lookup_insert_eq in Hfresh. }
        split; [done|]. split; [by constructor|]. split; [|split; [|done]].
        -- intros x [->|Hin]%elem_of_cons; [done|].
           specialize (Hfresh _ Hin). rewrite lookup_insert_ne in Hfresh; [done|].
           intros ->. done.
        -- destruct Ht as [Hin|Hsome]; [left; by right|].
           destruct (decide (a = t)) as [->|Hne]; [left; by left|].
           right. by rewrite lookup_insert_ne in Hsome.
Qed.

Lemma register_group_plugin_eq p r :
  register_group_plugin p r =
  if group_fallback_conflict p r
  then (Raise (group_fallback_error p), r)
  else for_in (IGroupForm.group_types p) (register_group_type p (group_controller_of p))
         (group_claim p r).
Proof.
  unfold register_group_plugin, group_fallback_conflict, group_fallback_error, group_claim,
    bind, gets.
  destruct (IGroupForm.is_fallback p); simpl; [|done].
  destruct (is_organization_of p).
  - destruct (_default_organization_plugin r) as [form|]; simpl; [|done].
    by destruct (isinstance_DefaultOrganizationForm form).
  - destruct (_default_group_plugin r) as [form|]; simpl; [|done].
    by destruct (isinstance_DefaultGroupForm form).
Qed.

Lemma group_claim_tables p r :
  _group_plugins (group_claim p r) = _group_plugins r ∧
  _group_controllers (group_claim p r) = _group_controllers r.
Proof.
  unfold group_claim. by destruct (IGroupForm.is_fallback p), (is_organization_of p).
Qed.

Lemma register_group_plugin_cases p r :
  (group_fallback_conflict p r = true ∧
   register_group_plugin p r = (Raise (group_fallback_error p), r)) ∨
  (group_fallback_conflict p r = false ∧
   NoDup (IGroupForm.group_types p) ∧
   (∀ t, t ∈ IGroupForm.group_types p → _group_plugins r !! t = None) ∧
   register_group_plugin p r =
     (Return tt,
      write_group_controllers
        (insert_all (IGroupForm.group_types p) (group_controller_of p) (_group_controllers r))
        (write_group_plugins
           (insert_all (IGroupForm.group_types p) (GroupPlugin p) (_group_plugins r))
           (group_claim p r)))) ∨
  (group_fallback_conflict p r = false ∧
   ∃ pre t post,
     IGroupForm.group_types p = pre ++ t :: post ∧ NoDup pre ∧
     (∀ x, x ∈ pre → _group_plugins r !! x = None) ∧
     (t ∈ pre ∨ is_Some (_group_plugins r !! t)) ∧
     register_group_plugin p r =
       (Raise (ExistingIGroupForm t),
        write_group_controllers
          (insert_all pre (group_controller_of p) (_group_controllers r))
          (write_group_plugins (insert_all pre (GroupPlugin p) (_group_plugins r))
             (group_claim p r)))).
Proof.
  rewrite register_group_plugin_eq.
  destruct (group_fallback_conflict p r); [by left|right].
  destruct (group_claim_tables p r) as [Hplugins Hcontrollers].
  destruct (register_group_types_spec p (group_controller_of p) (IGroupForm.group_types p)
              (group_claim p r))
    as [(Hnd & Hfresh & Heq)|(pre & t & post & Hsplit & Hnd & Hfresh & Ht & Heq)];
    rewrite Hplugins, Hcontrollers in *; naive_solver.
Qed.

Lemma register_group_plugins_eq gs r :
  register_group_plugins gs r =
  match for_in gs register_group_plugin r with
  | (Return _, r1) => set_default_group_plugin r1
  | (Raise e, r1) => (Raise e, r1)
  end.
Proof.
  unfold register_group_plugins, bind.
  by destruct (for_in gs register_group_plugin r) as [[[]|e] r1].
Qed.

Lemma set_default_group_plugin_eq r :
  set_default_group_plugin r = (Return tt, with_default_group_plugins r).
Proof.
  unfold set_default_group_plugin, with_default_group_plugins, bind, gets.
  destruct (_default_group_plugin r); simpl;
    destruct (_default_organization_plugin r); simpl;
    destruct (_group_controllers r !! "group") eqn:Hg; simpl; rewrite ?Hg;
    try (destruct (_group_controllers r !! "organization") eqn:Ho; simpl; rewrite ?Ho; done).
  all: rewrite lookup_insert_ne by done;
    destruct (_group_controllers r !! "organization") eqn:Ho; simpl; rewrite ?Ho; done.
Qed.

Lemma group_frame_refl gs r : group_frame gs r r.
Proof.
  exists (_group_plugins r), (_group_controllers r),
    (_default_group_plugin r), (_default_organization_plugin r).
  split; [by destruct r|]. split; [done|]. split; [by left|]. split; [by left|].
  split; by left.
Qed.

Lemma group_frame_cons h pre gs r r' :
  (∀ x, x ∈ pre → x ∈ IGroupForm.group_types h) →
  (∀ x, x ∈ pre → _group_plugins r !! x = None) →
  group_frame gs
    (write_group_controllers (insert_all pre (group_controller_of h) (_group_controllers r))
       (write_group_plugins (insert_all pre (GroupPlugin h) (_group_plugins r))
          (group_claim h r))) r' →
  group_frame (h :: gs) r r'.
Proof.
  intros Hpre Hfresh (T & C & SG & SO & -> & Hsub & Hrows & Hctl & Hg & Ho).
  simpl in Hsub, Hrows, Hctl, Hg, Ho.
  exists T, C, SG, SO. split.
  { unfold group_claim. by destruct (IGroupForm.is_fallback h), (is_organization_of h). }
  split; [|split; [|split; [|split]]].
  - etrans; [|exact Hsub]. by apply insert_all_subseteq.
  - intros t x Ht. destruct (Hrows t x Ht) as [Hold|(Hnone & p & Hp & Htp & ->)].
    + rewrite lookup_insert_all in Hold. case_decide as Hin; [|by left].
      right. split; [by apply Hfresh|]. simplify_eq.
      exists h. split; [by left|]. split; [by apply Hpre|done].
    + rewrite lookup_insert_all in Hnone. case_decide; [done|].
      right. split; [done|]. exists p. split; [by right|done].
  - intros t. destruct (Hctl t) as [Hold|(p & Hp & Htp & Hc)].
    + rewrite lookup_insert_all in Hold. case_decide as Hin.
      * right. exists h. split; [by left|]. split; [by apply Hpre|done].
      * by left.
    + right. exists p. split; [by right|done].
  - destruct Hg as [->|(p & Hp & Hfb & Horg & ->)].
    + unfold group_claim.
      destruct (IGroupForm.is_fallback h) eqn:Hfb, (is_organization_of h) eqn:Horg;
        try (by left).
      right. exists h. split; [by left|done].
    + right. exists p. split; [by right|done].
  - destruct Ho as [->|(p & Hp & Hfb & Horg & ->)].
    + unfold group_claim.
      destruct (IGroupForm.is_fallback h) eqn:Hfb, (is_organization_of h) eqn:Horg;
        try (by left).
      right. exists h. split; [by left|done].
    + right. exists p. split; [by right|done].
Qed.

Lemma register_group_loop_frame gs r o r' :
  for_in gs register_group_plugin r = (o, r') → group_frame gs r r'.
Proof.
  revert r. induction gs as [|h gs IH]; intros r Hrun.
  - simpl in Hrun. unfold ret in Hrun. injection Hrun as <- <-. apply group_frame_refl.
  - rewrite for_in_cons in Hrun.
    destruct (register_group_plugin_cases h r)
      as [[_ Heq]|[(_ & _ & Hfresh & Heq)|(_ & pre & t & post & Hsplit & _ & Hfresh & _ & Heq)]];
      rewrite Heq in Hrun.
    + injection Hrun as <- <-. apply group_frame_refl.
    + apply (group_frame_cons h (IGroupForm.group_types h)); [done..|]. by apply IH.
    + injection Hrun as <- <-. apply (group_frame_cons h pre); [|done|apply group_frame_refl].
      intros x Hx. rewrite Hsplit. set_solver.
Qed.

Lemma register_group_loop_collision gs r p t :
  p ∈ gs → t ∈ IGroupForm.group_types p → is_Some (_group_plugins r !! t) →
  ∃ e r', for_in gs register_group_plugin r = (Raise e, r').
Proof.
  revert r. induction gs as [|h gs IH]; intros r Hp Ht Hsome; [by apply elem_of_nil in Hp|].
  rewrite for_in_cons.
  destruct (register_group_plugin_cases h r)
    as [[_ ->]|[(_ & _ & Hfresh & ->)|(_ & pre & t' & post & _ & _ & _ & _ & ->)]]; eauto.
  apply elem_of_cons in Hp as [->|Hp].
  - rewrite (Hfresh t Ht) in Hsome. by destruct Hsome.
  - apply IH; [done..|]. simpl. rewrite lookup_insert_all.
    by case_decide.
Qed.

Lemma register_group_loop_duplicate l1 p l2 q t r :
  q ∈ l2 → t ∈ IGroupForm.group_types p → t ∈ IGroupForm.group_types q →
  ∃ e r', for_in (l1 ++ p :: l2) register_group_plugin r = (Raise e, r').
Proof.
  intros Hq Htp Htq. rewrite for_in_app.
  destruct (for_in l1 register_group_plugin r) as [[[]|e] r1]; [|eauto].
  rewrite for_in_cons.
  destruct (register_group_plugin_cases p r1)
    as [[_ ->]|[(_ & _ & Hfresh & ->)|(_ & pre & t' & post & _ & _ & _ & _ & ->)]]; eauto.
  apply (register_group_loop_collision l2 _ q t); [done..|].
  simpl. rewrite lookup_insert_all. by rewrite decide_True.
Qed.

Lemma register_group_loop_no_claim gs r e r' :
  (∀ p, p ∈ gs → IGroupForm.is_fallback p = false) →
  for_in gs register_group_plugin r = (Raise e, r') →
  ∃ t, e = ExistingIGroupForm t.
Proof.
  revert r. induction gs as [|h gs IH]; intros r Hnone Hrun; [done|].
  rewrite for_in_cons in Hrun.
  destruct (register_group_plugin_cases h r)
    as [[Hc Heq]|[(_ & _ & _ & Heq)|(_ & pre & t' & post & _ & _ & _ & _ & Heq)]];
    rewrite Heq in Hrun.
  - unfold group_fallback_conflict in Hc. rewrite Hnone in Hc by left. done.
  - eapply IH; [|done]. intros p Hp. apply Hnone. by right.
  - simplify_eq. eauto.
Qed.

Lemma group_fallback_conflict_eq p r :
  group_fallback_conflict p r =
  IGroupForm.is_fallback p && axis_occupied (is_organization_of p) r.
Proof.
  unfold group_fallback_conflict, axis_occupied. by destruct (is_organization_of p).
Qed.

Lemma MultipleFallbackError_group p : MultipleFallbackError (group_fallback_error p) = true.
Proof. unfold group_fallback_error. by destruct (is_organization_of p). Qed.




(** After a pass that went through, every declared type has its row in
    both tables. *)
Lemma register_group_loop_rows gs r r' p t :
  for_in gs register_group_plugin r = (Return tt, r') →
  p ∈ gs → t ∈ IGroupForm.group_types p →
  _group_plugins r' !! t = Some (GroupPlugin p) ∧
  _group_controllers r' !! t = Some (group_controller_of p).
Proof.
  revert r. induction gs as [|h gs IH]; intros r Hrun Hp Ht; [by apply elem_of_nil in Hp|].
  rewrite for_in_cons in Hrun.
  destruct (register_group_plugin_cases h r)
    as [[_ Heq]|[(_ & _ & _ & Heq)|(_ & pre & t' & post & _ & _ & _ & _ & Heq)]];
    rewrite Heq in Hrun; [done| |done].
  set (r1 := write_group_controllers _ _) in Hrun.
  destruct (decide (t ∈ IGroupForm.group_types h)) as [Hth|Hth].
  - assert (p = h) as ->.
    { apply elem_of_cons in Hp as [->|Hp]; [done|].
      destruct (register_group_loop_collision gs r1 p t) as (e & r2 & Hraise); [done..| |].
      - simpl. rewrite lookup_insert_all. by rewrite decide_True.
      - by rewrite Hraise in Hrun. }
    destruct (register_group_loop_frame _ _ _ _ Hrun)
      as (T & C & SG & SO & -> & Hsub & _ & Hctl & _ & _). simpl in *.
    split.
    + eapply lookup_weaken; [|exact Hsub]. rewrite lookup_insert_all. by rewrite decide_True.
    + destruct (Hctl t) as [->|(q & Hq & Htq & _)].
      * rewrite lookup_insert_all. by rewrite decide_True.
      * destruct (register_group_loop_collision gs r1 q t) as (e & r2 & Hraise); [done..| |].
        -- simpl. rewrite lookup_insert_all. by rewrite decide_True.
        -- by rewrite Hraise in Hrun.
  - apply elem_of_cons in Hp as [->|Hp]; [done|]. by apply (IH r1).
Qed.

Lemma with_default_group_plugins_fields r :
  _group_plugins (with_default_group_plugins r) = _group_plugins r ∧
  _default_group_plugin (with_default_group_plugins r) =
    Some (default DefaultGroupForm (_default_group_plugin r)) ∧
  _default_organization_plugin (with_default_group_plugins r) =
    Some (default DefaultOrganizationForm (_default_organization_plugin r)) ∧
  (∀ t, _group_controllers (with_default_group_plugins r) !! t =
        match _group_controllers r !! t with
        | Some controller => Some controller
        | None => if decide (t = "group") then Some "group"
                  else if decide (t = "organization") then Some "organization"
                  else None
        end) ∧
  _package_plugins (with_default_group_plugins r) = _package_plugins r ∧
  _default_package_plugin (with_default_group_plugins r) = _default_package_plugin r ∧
  _group_blueprints (with_default_group_plugins r) = _group_blueprints r.
Proof.
  unfold with_default_group_plugins.
  destruct (_default_group_plugin r) eqn:Hg; simpl; rewrite ?Hg;
    destruct (_default_organization_plugin r) eqn:Ho; simpl; rewrite ?Ho;
    destruct (_group_controllers r !! "group") eqn:Hcg; simpl; rewrite ?Hcg;
    rewrite ?lookup_insert_ne by done;
    destruct (_group_controllers r !! "organization") eqn:Hco; simpl; rewrite ?Hco;
    repeat split; try done;
    intros t; repeat case_decide; simplify_eq;
    rewrite ?Hcg, ?Hco, ?lookup_insert_eq, ?lookup_insert_ne, ?lookup_insert_eq by done;
    try done; by destruct (_group_controllers r !! t).
Qed.

(** One iteration goes through when the slot of its axis is free and its
    types are new. *)
Lemma register_group_plugin_success p r :
  group_fallback_conflict p r = false →
  NoDup (IGroupForm.group_types p) →
  (∀ t, t ∈ IGroupForm.group_types p → _group_plugins r !! t = None) →
  register_group_plugin p r =
    (Return tt,
     write_group_controllers
       (insert_all (IGroupForm.group_types p) (group_controller_of p) (_group_controllers r))
       (write_group_plugins
          (insert_all (IGroupForm.group_types p) (GroupPlugin p) (_group_plugins r))
          (group_claim p r))).
Proof.
  intros Hc Hnd Hfresh.
  destruct (register_group_plugin_cases p r)
    as [[Hc' _]|[(_ & _ & _ & Heq)|(_ & pre & t & post & Hsplit & _ & _ & Ht & _)]];
    [congruence|done|exfalso].
  rewrite Hsplit in Hnd, Hfresh. destruct Ht as [Hin|Hsome].
  - apply NoDup_app in Hnd as (_ & Hd & _). apply (Hd t); [done|by left].
  - rewrite Hfresh in Hsome; [by destruct Hsome|]. set_solver.
Qed.


Lemma register_package_plugins_raise ps r e r' :
  for_in ps register_package_plugin r = (Raise e, r') →
  register_package_plugins ps r = (Raise e, r').
Proof. intros Hrun. by rewrite register_package_plugins_eq, Hrun. Qed.

Lemma register_group_plugins_raise gs r e r' :
  for_in gs register_group_plugin r = (Raise e, r') →
  register_group_plugins gs r = (Raise e, r').
Proof. intros Hrun. by rewrite register_group_plugins_eq, Hrun. Qed.

Lemma error_kinds e : DuplicateRegistration e = true ∨ MultipleFallbackError e = true.
Proof. destruct e; auto. Qed.

(** Where a pass over the dataset plugins that raises has stopped: at a
    plugin [h], after the plugins [l1] before it went through, and either
    at the fallback check of [h], before any of its types, or at a type
    [t] of [h] that is a key by then, after the types [pre] before it.
    The table it leaves holds the old rows, the rows of every type of the
    plugins of [l1] and the rows of [pre], and no other row. *)
Lemma register_package_loop_raise_point ps r e r' :
  for_in ps register_package_plugin r = (Raise e, r') →
  ∃ l1 h l2 pre,
    ps = l1 ++ h :: l2 ∧
    (∀ t x, _package_plugins r' !! t = Some x ↔
       _package_plugins r !! t = Some x ∨
       (∃ p, p ∈ l1 ∧ t ∈ IDatasetForm.package_types p ∧ x = DatasetPlugin p) ∨
       (t ∈ pre ∧ x = DatasetPlugin h)) ∧
    ((e = MoreThanOneFallbackIDatasetForm ∧ IDatasetForm.is_fallback h = true ∧ pre = []) ∨
     ∃ t post, IDatasetForm.package_types h = pre ++ t :: post ∧
               e = ExistingIDatasetForm t ∧ is_Some (_package_plugins r' !! t)).
Proof.
  revert r. induction ps as [|h0 ps IH]; intros r Hrun; [done|].
  rewrite for_in_cons in Hrun.
  destruct (register_package_plugin_cases h0 r)
    as [[Hc Heq]|[(_ & _ & Hfresh & Heq)|(_ & pre & t & post & Hsplit & _ & Hfresh & Ht & Heq)]];
    rewrite Heq in Hrun.
  - injection Hrun as <- <-. exists [], h0, ps, []. split; [done|]. split.
    + intros t x. split; [by left|].
      intros [?|[(p & Hp & _)|[Hin _]]]; [done|by apply elem_of_nil in Hp|by apply elem_of_nil in Hin].
    + left. unfold dataset_fallback_conflict in Hc. by apply andb_true_iff in Hc as [? _].
  - destruct (IH _ Hrun) as (l1 & h & l2 & pre & -> & Hiff & Hpoint).
    exists (h0 :: l1), h, l2, pre. split; [done|]. split; [|done].
    intros t x. rewrite Hiff. simpl. rewrite lookup_insert_all.
    case_decide as Hin.
    + rewrite (Hfresh t Hin). split.
      * intros [[= <-]|[(p & Hp & Htp & ->)|[Hpre ->]]].
        -- right; left. exists h0. split; [by left|done].
        -- right; left. exists p. split; [by right|done].
        -- by right; right.
      * intros [?|[(p & Hp & Htp & ->)|[Hpre ->]]]; [done| |by right; right].
        apply elem_of_cons in Hp as [->|Hp]; [by left|]. right; left. by exists p.
    + split.
      * intros [?|[(p & Hp & Htp & ->)|?]]; [by left| |by right; right].
        right; left. exists p. split; [by right|done].
      * intros [?|[(p & Hp & Htp & ->)|?]]; [by left| |by right; right].
        apply elem_of_cons in Hp as [->|Hp]; [done|]. right; left. by exists p.
  - injection Hrun as <- <-. exists [], h0, ps, pre. split; [done|]. split.
    + intros t' x. simpl. rewrite lookup_insert_all. case_decide as Hin.
      * rewrite (Hfresh t' Hin). split; [intros [= <-]; by right; right|].
        intros [?|[(p & Hp & _)|[_ ->]]]; [done|by apply elem_of_nil in Hp|done].
      * split; [by left|].
        intros [?|[(p & Hp & _)|[? _]]]; [done|by apply elem_of_nil in Hp|done].
    + right. exists t, post. split; [done|]. split; [done|].
      simpl. rewrite lookup_insert_all. case_decide; [done|]. by destruct Ht.
Qed.

(** The same for a pass over the group plugins. *)
Lemma register_group_loop_raise_point gs r e r' :
  for_in gs register_group_plugin r = (Raise e, r') →
  ∃ l1 h l2 pre,
    gs = l1 ++ h :: l2 ∧
    (∀ t x, _group_plugins r' !! t = Some x ↔
       _group_plugins r !! t = Some x ∨
       (∃ p, p ∈ l1 ∧ t ∈ IGroupForm.group_types p ∧ x = GroupPlugin p) ∨
       (t ∈ pre ∧ x = GroupPlugin h)) ∧
    ((e = group_fallback_error h ∧ IGroupForm.is_fallback h = true ∧ pre = []) ∨
     ∃ t post, IGroupForm.group_types h = pre ++ t :: post ∧
               e = ExistingIGroupForm t ∧ is_Some (_group_plugins r' !! t)).
Proof.
  revert r. induction gs as [|h0 gs IH]; intros r Hrun; [done|].
  rewrite for_in_cons in Hrun.
  destruct (register_group_plugin_cases h0 r)
    as [[Hc Heq]|[(_ & _ & Hfresh & Heq)|(_ & pre & t & post & Hsplit & _ & Hfresh & Ht & Heq)]];
    rewrite Heq in Hrun.
  - injection Hrun as <- <-. exists [], h0, gs, []. split; [done|]. split.
    + intros t x. split; [by left|].
      intros [?|[(p & Hp & _)|[Hin _]]]; [done|by apply elem_of_nil in Hp|by apply elem_of_nil in Hin].
    + left. unfold group_fallback_conflict in Hc. by apply andb_true_iff in Hc as [? _].
  - destruct (IH _ Hrun) as (l1 & h & l2 & pre & -> & Hiff & Hpoint).
    exists (h0 :: l1), h, l2, pre. split; [done|]. split; [|done].
    intros t x. rewrite Hiff. simpl. rewrite lookup_insert_all.
    case_decide as Hin.
    + rewrite (Hfresh t Hin). split.
      * intros [[= <-]|[(p & Hp & Htp & ->)|[Hpre ->]]].
        -- right; left. exists h0. split; [by left|done].
        -- right; left. exists p. split; [by right|done].
        -- by right; right.
      * intros [?|[(p & Hp & Htp & ->)|[Hpre ->]]]; [done| |by right; right].
        apply elem_of_cons in Hp as [->|Hp]; [by left|]. right; left. by exists p.
    + split.
      * intros [?|[(p & Hp & Htp & ->)|?]]; [by left| |by right; right].
        right; left. exists p. split; [by right|done].
      * intros [?|[(p & Hp & Htp & ->)|?]]; [by left| |by right; right].
        apply elem_of_cons in Hp as [->|Hp]; [done|]. right; left. by exists p.
  - injection Hrun as <- <-. exists [], h0, gs, pre. split; [done|]. split.
    + intros t' x. simpl. rewrite lookup_insert_all. case_decide as Hin.
      * rewrite (Hfresh t' Hin). split; [intros [= <-]; by right; right|].
        intros [?|[(p & Hp & _)|[_ ->]]]; [done|by apply elem_of_nil in Hp|done].
      * split; [by left|].
        intros [?|[(p & Hp & _)|[? _]]]; [done|by apply elem_of_nil in Hp|done].
    + right. exists t, post. split; [done|]. split; [done|].
      simpl. rewrite lookup_insert_all. case_decide; [done|]. by destruct Ht.
Qed.

(** ** Duplicate types *)

(** C1, as amended: when two plugins of a pass declare the same type on
    one axis (datasets, or groups and organizations together), the
    registration function raises.  The error is the duplicate-registration
    error unless the more-than-one-fallback error is met first, and it is
    the duplicate-registration error whenever no plugin of the pass claims
    to be the fallback.  Nothing is rolled back.  The pass has stopped at
    one of its plugins, [h], with the plugins [l1] before it done, and at
    one type of [h], with the types [pre] of [h] before it done (at the
    fallback check of [h], with none of its types done, when the error is
    the more-than-one-fallback error).  The table the failed call leaves
    holds exactly: every row it had before the call, a row for every type
    of every plugin of [l1], and a row for every type of [pre]; each row
    added maps a type that was not a key to the plugin that declares it.
    When the error is the duplicate-registration error, it names the type
    the pass stopped at, and that type is a key of the table left. *)
Theorem duplicate_type_raises_without_rollback :
  (∀ (ps : list IDatasetForm.plugin) i j p q t r,
     i ≠ j → ps !! i = Some p → ps !! j = Some q →
     t ∈ IDatasetForm.package_types p → t ∈ IDatasetForm.package_types q →
     ∃ e r' l1 h l2 pre,
       register_package_plugins ps r = (Raise e, r') ∧
       (DuplicateRegistration e = true ∨ MultipleFallbackError e = true) ∧
       ((∀ x, x ∈ ps → IDatasetForm.is_fallback x = false) →
        DuplicateRegistration e = true) ∧
       _package_plugins r ⊆ _package_plugins r' ∧
       (∀ t' x, _package_plugins r' !! t' = Some x →
          _package_plugins r !! t' = Some x ∨
          (_package_plugins r !! t' = None ∧
           ∃ x', x' ∈ ps ∧ t' ∈ IDatasetForm.package_types x' ∧ x = DatasetPlugin x')) ∧
       ps = l1 ++ h :: l2 ∧
       (∀ t' x, _package_plugins r' !! t' = Some x ↔
          _package_plugins r !! t' = Some x ∨
          (∃ x', x' ∈ l1 ∧ t' ∈ IDatasetForm.package_types x' ∧ x = DatasetPlugin x') ∨
          (t' ∈ pre ∧ x = DatasetPlugin h)) ∧
       ((e = MoreThanOneFallbackIDatasetForm ∧ IDatasetForm.is_fallback h = true ∧ pre = []) ∨
        ∃ t' post, IDatasetForm.package_types h = pre ++ t' :: post ∧
                   e = ExistingIDatasetForm t' ∧ is_Some (_package_plugins r' !! t'))) ∧
  (∀ (gs : list IGroupForm.plugin) i j p q t r,
     i ≠ j → gs !! i = Some p → gs !! j = Some q →
     t ∈ IGroupForm.group_types p → t ∈ IGroupForm.group_types q →
     ∃ e r' l1 h l2 pre,
       register_group_plugins gs r = (Raise e, r') ∧
       (DuplicateRegistration e = true ∨ MultipleFallbackError e = true) ∧
       ((∀ x, x ∈ gs → IGroupForm.is_fallback x = false) →
        DuplicateRegistration e = true) ∧
       _group_plugins r ⊆ _group_plugins r' ∧
       (∀ t' x, _group_plugins r' !! t' = Some x →
          _group_plugins r !! t' = Some x ∨
          (_group_plugins r !! t' = None ∧
           ∃ x', x' ∈ gs ∧ t' ∈ IGroupForm.group_types x' ∧ x = GroupPlugin x')) ∧
       gs = l1 ++ h :: l2 ∧
       (∀ t' x, _group_plugins r' !! t' = Some x ↔
          _group_plugins r !! t' = Some x ∨
          (∃ x', x' ∈ l1 ∧ t' ∈ IGroupForm.group_types x' ∧ x = GroupPlugin x') ∨
          (t' ∈ pre ∧ x = GroupPlugin h)) ∧
       ((MultipleFallbackError e = true ∧ IGroupForm.is_fallback h = true ∧ pre = []) ∨
        ∃ t' post, IGroupForm.group_types h = pre ++ t' :: post ∧
                   e = ExistingIGroupForm t' ∧ is_Some (_group_plugins r' !! t'))).
Proof.
  split.
  - intros ps i j p q t r Hij Hi Hj Htp Htq.
    destruct (two_positions_split ps i j p q Hij Hi Hj) as (l1 & l2 & a & b & Hsplit & Hb & Hab).
    destruct (register_package_loop_duplicate l1 a l2 b t r) as (e & r' & Hrun);
      [done|naive_solver..|].
    rewrite <- Hsplit in Hrun.
    destruct (register_package_loop_raise_point ps r e r' Hrun)
      as (k1 & h & k2 & pre & Hat & Hexact & Hpoint).
    exists e, r', k1, h, k2, pre.
    split; [by apply register_package_plugins_raise|].
    split; [apply error_kinds|]. split.
    + intros Hnone.
      destruct (register_package_loop_no_claim ps r e r' Hnone Hrun) as [t' ->]. done.
    + destruct (register_package_loop_frame ps r _ r' Hrun) as (T & S & -> & Hsub & Hrows & _).
      done.
  - intros gs i j p q t r Hij Hi Hj Htp Htq.
    destruct (two_positions_split gs i j p q Hij Hi Hj) as (l1 & l2 & a & b & Hsplit & Hb & Hab).
    destruct (register_group_loop_duplicate l1 a l2 b t r) as (e & r' & Hrun);
      [done|naive_solver..|].
    rewrite <- Hsplit in Hrun.
    destruct (register_group_loop_raise_point gs r e r' Hrun)
      as (k1 & h & k2 & pre & Hat & Hexact & Hpoint).
    exists e, r', k1, h, k2, pre.
    split; [by apply register_group_plugins_raise|].
    split; [apply error_kinds|]. split.
    + intros Hnone.
      destruct (register_group_loop_no_claim gs r e r' Hnone Hrun) as [t' ->]. done.
    + destruct (register_group_loop_frame gs r _ r' Hrun)
        as (T & C & SG & SO & Hr' & Hsub & Hrows & _).
      assert (_group_plugins r' = T) as Htable by (by rewrite Hr').
      rewrite <- Htable in Hsub, Hrows.
      split; [done|]. split; [done|]. split; [done|]. split; [done|].
      destruct Hpoint as [(He & Hfb & Hpre)|Hpoint]; [left|by right].
      split; [|done]. rewrite He. apply MultipleFallbackError_group.
Qed.

Lemma duplicate_type_raises_without_rollback_witness :
  (∃ e r' t,
     register_package_plugins [dataset_a; dataset_b] initial = (Raise e, r') ∧
     e = ExistingIDatasetForm t ∧
     _package_plugins initial ⊆ _package_plugins r' ∧
     is_Some (_package_plugins r' !! t)) ∧
  (∃ e r' t,
     register_group_plugins [group_a; group_b] initial = (Raise e, r') ∧
     e = ExistingIGroupForm t ∧
     _group_plugins initial ⊆ _group_plugins r' ∧
     is_Some (_group_plugins r' !! t)).
Proof.
  split.
  - destruct (proj1 duplicate_type_raises_without_rollback
                [dataset_a; dataset_b] 0 1 dataset_a dataset_b "beta" initial)
      as (e & r' & l1 & h & l2 & pre & Hrun & _ & Hdup & Hsub & _ & _ & _ & Hpoint).
    + lia.
    + reflexivity.
    + reflexivity.
    + simpl. set_solver.
    + simpl. set_solver.
    + assert (DuplicateRegistration e = true) as He.
      { apply Hdup. intros x Hx. set_unfold. destruct Hx as [->|[->|[]]]; reflexivity. }
      destruct Hpoint as [(-> & _)|(t & post & _ & -> & Hkey)]; [discriminate He|].
      exists (ExistingIDatasetForm t), r', t.
      split; [exact Hrun|]. split; [reflexivity|]. split; [exact Hsub|exact Hkey].
  - destruct (proj2 duplicate_type_raises_without_rollback
                [group_a; group_b] 0 1 group_a group_b "beta" initial)
      as (e & r' & l1 & h & l2 & pre & Hrun & _ & Hdup & Hsub & _ & _ & _ & Hpoint).
    + lia.
    + reflexivity.
    + reflexivity.
    + simpl. set_solver.
    + simpl. set_solver.
    + assert (DuplicateRegistration e = true) as He.
      { apply Hdup. intros x Hx. set_unfold. destruct Hx as [->|[->|[]]]; reflexivity. }
      destruct Hpoint as [(Hmulti & _)|(t & post & _ & -> & Hkey)].
      { destruct e; discriminate. }
      exists (ExistingIGroupForm t), r', t.
      split; [exact Hrun|]. split; [reflexivity|]. split; [exact Hsub|exact Hkey].
Defined.

(** C1 as the specification states it does not hold: the second
    plugin's duplicate type raises the duplicate-registration error, and
    the rows of the first plugin are still in the table, which was empty
    before the call. *)
Lemma duplicate_registration_is_not_rolled_back :
  ∃ r',
    register_package_plugins [dataset_a; dataset_b] initial =
      (Raise (ExistingIDatasetForm "beta"), r') ∧
    DuplicateRegistration (ExistingIDatasetForm "beta") = true ∧
    _package_plugins r' !! "alpha" = Some (DatasetPlugin dataset_a) ∧
    _package_plugins initial !! "alpha" = None ∧
    _package_plugins r' ≠ _package_plugins initial.
Proof.
  eexists. split; [vm_compute; reflexivity|].
  split; [reflexivity|]. split; [reflexivity|]. split; [reflexivity|].
  intros Heq. apply (f_equal (λ m, m !! "alpha")) in Heq. vm_compute in Heq. discriminate.
Qed.

(** ** More than one fallback *)




(** A fallback plugin whose class derives from [DefaultDatasetForm]
    passes the [isinstance] test of the fallback check, so a second
    fallback replaces it and nothing is raised. *)
Example derived_fallback_is_replaced :
  ∃ r',
    register_package_plugins [dataset_derived; dataset_f2] initial = (Return tt, r') ∧
    _default_package_plugin r' = Some (DatasetPlugin dataset_f2).
Proof. eexists. split; [vm_compute; reflexivity|reflexivity]. Qed.

(** ** Lookups only read *)

Lemma read_only_ret {A} (a : A) : read_only (ret a).
Proof. intros r. by exists a. Qed.

Lemma read_only_gets {A} (f : registry → A) : read_only (gets f).
Proof. intros r. by exists (f r). Qed.

Lemma read_only_bind {A B} (m : M A) (k : A → M B) :
  read_only m → (∀ a, read_only (k a)) → read_only (bind m k).
Proof.
  intros Hm Hk r. destruct (Hm r) as [a Ha]. destruct (Hk a r) as [b Hb].
  exists b. unfold bind. by rewrite Ha.
Qed.

Lemma read_only_for_in {A} (xs : list A) (body : A → M unit) :
  (∀ x, read_only (body x)) → read_only (for_in xs body).
Proof.
  intros Hbody. induction xs as [|x xs IH]; [apply read_only_ret|].
  apply read_only_bind; [apply Hbody|done].
Qed.

Lemma read_only_lookup_package_plugin t : read_only (lookup_package_plugin t).
Proof.
  destruct t as [t|]; [|apply read_only_gets].
  repeat (apply read_only_bind; [apply read_only_gets|intros ?]). apply read_only_ret.
Qed.

Lemma read_only_lookup_group_plugin t : read_only (lookup_group_plugin t).
Proof.
  destruct t as [t|]; [|apply read_only_gets].
  apply read_only_bind; [apply read_only_gets|intros ?].
  apply read_only_bind; [|intros ?; apply read_only_ret].
  destruct (String.eqb t "organization"); apply read_only_gets.
Qed.

Lemma read_only_lookup_group_controller t : read_only (lookup_group_controller t).
Proof.
  destruct t as [t|]; [|apply read_only_ret].
  apply read_only_bind; [apply read_only_gets|intros ?]. apply read_only_ret.
Qed.

Lemma read_only_perform call : read_only (perform call).
Proof.
  destruct call; (apply read_only_bind; [|intros ?; apply read_only_ret]).
  - apply read_only_lookup_package_plugin.
  - apply read_only_lookup_group_plugin.
  - apply read_only_lookup_group_controller.
Qed.

Lemma lookup_sequence_read_only (before : list lookup_call) r :
  for_in before (λ c, perform c >> ret tt) r = (Return tt, r).
Proof.
  destruct (read_only_for_in before (λ c, perform c >> ret tt)) with (r := r) as [[] Hrun];
    [|done].
  intros c. apply read_only_bind; [apply read_only_perform|intros ?; apply read_only_ret].
Qed.

Lemma lookup_group_controller_eq t r :
  lookup_group_controller (Some t) r = (Return (_group_controllers r !! t), r).
Proof. reflexivity. Qed.

Lemma lookup_group_plugin_eq t r :
  lookup_group_plugin (Some t) r =
  (Return match _group_plugins r !! t with
          | Some plugin => Some plugin
          | None => if String.eqb t "organization"
                    then _default_organization_plugin r
                    else _default_group_plugin r
          end, r).
Proof.
  unfold lookup_group_plugin, bind, gets, ret. by destruct (String.eqb t "organization").
Qed.

(** ** The default fallbacks *)

Lemma constructed_with_default_group_plugins r :
  constructed (with_default_group_plugins r) =
    match _default_organization_plugin r with
    | None => [cls_DefaultOrganizationForm]
    | Some _ => []
    end ++
    match _default_group_plugin r with
    | None => [cls_DefaultGroupForm]
    | Some _ => []
    end ++ constructed r.
Proof.
  unfold with_default_group_plugins.
  destruct (_default_group_plugin r) eqn:Hg; simpl; rewrite ?Hg;
    destruct (_default_organization_plugin r) eqn:Ho; simpl; rewrite ?Ho;
    destruct (_group_controllers r !! "group") eqn:Hcg; simpl; rewrite ?Hcg;
    rewrite ?lookup_insert_ne by done;
    destruct (_group_controllers r !! "organization") eqn:Hco; simpl; rewrite ?Hco; done.
Qed.

(** A pass without a claim for an axis leaves the slot of that axis. *)
Lemma register_package_loop_slot ps r o r' :
  (∀ p, p ∈ ps → IDatasetForm.is_fallback p = false) →
  for_in ps register_package_plugin r = (o, r') →
  _default_package_plugin r' = _default_package_plugin r ∧ constructed r' = constructed r.
Proof.
  intros Hnone Hrun.
  destruct (register_package_loop_frame ps r o r' Hrun) as (T & S & -> & _ & _ & Hslot).
  simpl. split; [|done]. destruct Hslot as [->|(p & Hp & Hfb & _)]; [done|].
  rewrite Hnone in Hfb by done. done.
Qed.

Lemma register_group_loop_slots gs r o r' :
  for_in gs register_group_plugin r = (o, r') →
  ((∀ p, p ∈ gs → IGroupForm.is_fallback p = true → is_organization_of p = true) →
   _default_group_plugin r' = _default_group_plugin r) ∧
  ((∀ p, p ∈ gs → IGroupForm.is_fallback p = true → is_organization_of p = false) →
   _default_organization_plugin r' = _default_organization_plugin r) ∧
  constructed r' = constructed r.
Proof.
  intros Hrun.
  destruct (register_group_loop_frame gs r o r' Hrun)
    as (T & C & SG & SO & -> & _ & _ & _ & Hg & Ho).
  simpl. split; [|split; [|done]]; intros Hnone.
  - destruct Hg as [->|(p & Hp & Hfb & Horg & _)]; [done|].
    rewrite (Hnone p Hp Hfb) in Horg. done.
  - destruct Ho as [->|(p & Hp & Hfb & Horg & _)]; [done|].
    rewrite (Hnone p Hp Hfb) in Horg. done.
Qed.

(** C7, as amended: on an axis whose slot is empty and for which no
    plugin of the pass claims to be the fallback, the registration
    function itself installs an instance of the axis's default class as
    its last step, before any lookup; the class's constructor is called
    exactly once for it.  After any sequence of lookups the registry is
    still the one that the registration left, so the constructor has
    still been called once, and a lookup returns that instance: for the
    dataset and group axes the lookup with an absent type, for the
    organization axis the lookup of the type ["organization"] when that
    type has no row. *)
Theorem default_fallback_installed_by_registration :
  (∀ (ps : list IDatasetForm.plugin) r r',
     _default_package_plugin r = None →
     (∀ p, p ∈ ps → IDatasetForm.is_fallback p = false) →
     register_package_plugins ps r = (Return tt, r') →
     _default_package_plugin r' = Some DefaultDatasetForm ∧
     constructions cls_DefaultDatasetForm r' = S (constructions cls_DefaultDatasetForm r) ∧
     ∀ before : list lookup_call,
       let r'' := snd (for_in before (λ c, perform c >> ret tt) r') in
       lookup_package_plugin None r'' = (Return (Some DefaultDatasetForm), r'') ∧
       constructions cls_DefaultDatasetForm r'' =
         S (constructions cls_DefaultDatasetForm r)) ∧
  (∀ (gs : list IGroupForm.plugin) r r',
     _default_group_plugin r = None →
     (∀ p, p ∈ gs → IGroupForm.is_fallback p = true → is_organization_of p = true) →
     register_group_plugins gs r = (Return tt, r') →
     _default_group_plugin r' = Some DefaultGroupForm ∧
     constructions cls_DefaultGroupForm r' = S (constructions cls_DefaultGroupForm r) ∧
     ∀ before : list lookup_call,
       let r'' := snd (for_in before (λ c, perform c >> ret tt) r') in
       lookup_group_plugin None r'' = (Return (Some DefaultGroupForm), r'') ∧
       constructions cls_DefaultGroupForm r'' = S (constructions cls_DefaultGroupForm r)) ∧
  (∀ (gs : list IGroupForm.plugin) r r',
     _default_organization_plugin r = None →
     (∀ p, p ∈ gs → IGroupForm.is_fallback p = true → is_organization_of p = false) →
     register_group_plugins gs r = (Return tt, r') →
     _default_organization_plugin r' = Some DefaultOrganizationForm ∧
     constructions cls_DefaultOrganizationForm r' =
       S (constructions cls_DefaultOrganizationForm r) ∧
     ∀ before : list lookup_call,
       let r'' := snd (for_in before (λ c, perform c >> ret tt) r') in
       (_group_plugins r' !! "organization" = None →
        lookup_group_plugin (Some "organization") r'' =
          (Return (Some DefaultOrganizationForm), r'')) ∧
       constructions cls_DefaultOrganizationForm r'' =
         S (constructions cls_DefaultOrganizationForm r)).
Proof.
  split; [|split].
  - intros ps r r' Hempty Hnone Hrun. rewrite register_package_plugins_eq in Hrun.
    destruct (for_in ps register_package_plugin r) as [[[]|e] r1] eqn:Hloop; [|done].
    destruct (register_package_loop_slot ps r _ r1 Hnone Hloop) as [Hslot Hlog].
    rewrite Hslot, Hempty in Hrun. injection Hrun as <-.
    assert (constructions cls_DefaultDatasetForm
              (write_default_package_plugin (Some DefaultDatasetForm)
                 (log_constructed cls_DefaultDatasetForm r1)) =
            S (constructions cls_DefaultDatasetForm r)) as Hcount.
    { unfold constructions. simpl. by rewrite Hlog. }
    split; [done|]. split; [done|].
    intros before. rewrite lookup_sequence_read_only. cbn [snd]. done.
  - intros gs r r' Hempty Hnone Hrun. rewrite register_group_plugins_eq in Hrun.
    destruct (for_in gs register_group_plugin r) as [[[]|e] r1] eqn:Hloop; [|done].
    destruct (register_group_loop_slots gs r _ r1 Hloop) as (Hslot & _ & Hlog).
    specialize (Hslot Hnone). rewrite set_default_group_plugin_eq in Hrun.
    injection Hrun as <-.
    destruct (with_default_group_plugins_fields r1) as (_ & Hg & _).
    rewrite Hslot, Hempty in Hg.
    assert (constructions cls_DefaultGroupForm (with_default_group_plugins r1) =
            S (constructions cls_DefaultGroupForm r)) as Hcount.
    { unfold constructions.
      rewrite constructed_with_default_group_plugins, Hslot, Hempty, Hlog.
      by destruct (_default_organization_plugin r1). }
    split; [done|]. split; [done|].
    intros before. rewrite lookup_sequence_read_only. cbn [snd].
    split; [|done]. unfold lookup_group_plugin, gets. by rewrite Hg.
  - intros gs r r' Hempty Hnone Hrun. rewrite register_group_plugins_eq in Hrun.
    destruct (for_in gs register_group_plugin r) as [[[]|e] r1] eqn:Hloop; [|done].
    destruct (register_group_loop_slots gs r _ r1 Hloop) as (_ & Hslot & Hlog).
    specialize (Hslot Hnone). rewrite set_default_group_plugin_eq in Hrun.
    injection Hrun as <-.
    destruct (with_default_group_plugins_fields r1) as (_ & _ & Ho & _).
    rewrite Hslot, Hempty in Ho.
    assert (constructions cls_DefaultOrganizationForm (with_default_group_plugins r1) =
            S (constructions cls_DefaultOrganizationForm r)) as Hcount.
    { unfold constructions.
      rewrite constructed_with_default_group_plugins, Hslot, Hempty, Hlog.
      by destruct (_default_group_plugin r1). }
    split; [done|]. split; [done|].
    intros before. rewrite lookup_sequence_read_only. cbn [snd].
    split; [|done]. intros Hrow. by rewrite lookup_group_plugin_eq, Hrow, Ho.
Qed.

Lemma default_fallback_installed_by_registration_witness :
  (∃ r', register_package_plugins [dataset_a] initial = (Return tt, r') ∧
         _default_package_plugin r' = Some DefaultDatasetForm ∧
         constructions cls_DefaultDatasetForm r' = 1) ∧
  (∃ r', register_group_plugins [group_a; organization_f] initial = (Return tt, r') ∧
         _default_group_plugin r' = Some DefaultGroupForm ∧
         constructions cls_DefaultGroupForm r' = 1) ∧
  (∃ r', register_group_plugins [group_b; group_f1] initial = (Return tt, r') ∧
         _default_organization_plugin r' = Some DefaultOrganizationForm ∧
         constructions cls_DefaultOrganizationForm r' = 1).
Proof.
  split; [|split].
  - exists (snd (register_package_plugins [dataset_a] initial)).
    split; [vm_compute; reflexivity|].
    destruct (proj1 default_fallback_installed_by_registration [dataset_a] initial
                (snd (register_package_plugins [dataset_a] initial)))
      as (Hslot & Hcount & _).
    + reflexivity.
    + intros p Hp. set_unfold. destruct Hp as [->|[]]. reflexivity.
    + vm_compute. reflexivity.
    + split; [exact Hslot|exact Hcount].
  - exists (snd (register_group_plugins [group_a; organization_f] initial)).
    split; [vm_compute; reflexivity|].
    destruct (proj1 (proj2 default_fallback_installed_by_registration)
                [group_a; organization_f] initial
                (snd (register_group_plugins [group_a; organization_f] initial)))
      as (Hslot & Hcount & _).
    + reflexivity.
    + intros p Hp. set_unfold. destruct Hp as [->|[->|[]]]; [discriminate|reflexivity].
    + vm_compute. reflexivity.
    + split; [exact Hslot|exact Hcount].
  - exists (snd (register_group_plugins [group_b; group_f1] initial)).
    split; [vm_compute; reflexivity|].
    destruct (proj2 (proj2 default_fallback_installed_by_registration)
                [group_b; group_f1] initial
                (snd (register_group_plugins [group_b; group_f1] initial)))
      as (Hslot & Hcount & _).
    + reflexivity.
    + intros p Hp. set_unfold. destruct Hp as [->|[->|[]]]; [discriminate|reflexivity].
    + vm_compute. reflexivity.
    + split; [exact Hslot|exact Hcount].
Defined.

(** C7 as the specification states it does not hold: after the
    registration of no plugin at all, and before any lookup, the slot
    already holds the default instance, constructed by the registration;
    and a lookup never installs anything (on the fresh registry it
    returns [None] and leaves the slot empty). *)
Lemma default_fallback_is_installed_before_any_lookup :
  (∃ r', register_package_plugins [] initial = (Return tt, r') ∧
         _default_package_plugin r' = Some DefaultDatasetForm ∧
         constructed r' = [cls_DefaultDatasetForm]) ∧
  lookup_package_plugin None initial = (Return None, initial) ∧
  _default_package_plugin (snd (lookup_package_plugin None initial)) = None.
Proof.
  split; [eexists; split; [vm_compute; reflexivity|split; reflexivity]|].
  split; reflexivity.
Qed.

(** ** Lookups *)

(** C8, as amended: after a registration pass that went through, started
    with an empty controller table, [lookup_group_controller] returns for
    a type that a plugin of the pass declares the controller name bound at
    registration (the plugin's [group_controller()], or ['group'] when it
    has none); for a type that no plugin declares it returns the default
    controller name ['group'] for the type ['group'], ['organization'] for
    the type ['organization'], and nothing for any other type. *)
Theorem lookup_group_controller_after_registration
    (gs : list IGroupForm.plugin) (r r' : registry) :
  _group_controllers r = ∅ →
  register_group_plugins gs r = (Return tt, r') →
  ∀ t,
    ((∀ p, p ∈ gs → t ∉ IGroupForm.group_types p) →
     lookup_group_controller (Some t) r' =
       (Return (if decide (t = "group") then Some "group"
                else if decide (t = "organization") then Some "organization"
                else None), r')) ∧
    (∀ p, p ∈ gs → t ∈ IGroupForm.group_types p →
       lookup_group_controller (Some t) r' = (Return (Some (group_controller_of p)), r')).
Proof.
  intros Hempty Hrun t. rewrite register_group_plugins_eq in Hrun.
  destruct (for_in gs register_group_plugin r) as [[[]|e] r1] eqn:Hloop; [|done].
  rewrite set_default_group_plugin_eq in Hrun. injection Hrun as <-.
  rewrite lookup_group_controller_eq.
  destruct (with_default_group_plugins_fields r1) as (_ & _ & _ & -> & _).
  split.
  - intros Hnone.
    destruct (register_group_loop_frame gs r _ r1 Hloop)
      as (T & C & SG & SO & -> & _ & _ & Hctl & _). simpl.
    destruct (Hctl t) as [->|(p & Hp & Htp & _)]; [|by destruct (Hnone p Hp)].
    by rewrite Hempty, lookup_empty.
  - intros p Hp Htp.
    destruct (register_group_loop_rows gs r r1 p t Hloop Hp Htp) as [_ ->]. done.
Qed.

Lemma lookup_group_controller_after_registration_witness :
  ∃ r', register_group_plugins [group_b; group_f1] initial = (Return tt, r') ∧
        lookup_group_controller (Some "beta") r' = (Return (Some "organization"), r') ∧
        lookup_group_controller (Some "alpha") r' = (Return (Some "group"), r') ∧
        lookup_group_controller (Some "organization") r' =
          (Return (Some "organization"), r') ∧
        lookup_group_controller (Some "zeta") r' = (Return None, r').
Proof.
  exists (snd (register_group_plugins [group_b; group_f1] initial)).
  split; [vm_compute; reflexivity|].
  pose proof (lookup_group_controller_after_registration [group_b; group_f1] initial
                (snd (register_group_plugins [group_b; group_f1] initial))
                ltac:(reflexivity) ltac:(vm_compute; reflexivity)) as Hlookup.
  assert (∀ t, t ≠ "alpha" → t ≠ "beta" →
               ∀ p, p ∈ [group_b; group_f1] → t ∉ IGroupForm.group_types p) as Hother.
  { intros t Ha Hb p Hp. set_unfold. destruct Hp as [->|[->|[]]]; simpl; set_solver. }
  split; [|split; [|split]].
  - apply (proj2 (Hlookup "beta") group_b); simpl; set_solver.
  - apply (proj2 (Hlookup "alpha") group_f1); simpl; set_solver.
  - apply (proj1 (Hlookup "organization")), Hother; discriminate.
  - apply (proj1 (Hlookup "zeta")), Hother; discriminate.
Defined.

(** C8 as the specification states it does not hold: no plugin
    registers the type ["group"], and after the registration
    [lookup_group_controller] returns the default controller name for
    it. *)
Lemma unregistered_group_has_default_controller :
  ∃ r', register_group_plugins [] initial = (Return tt, r') ∧
        lookup_group_controller (Some "group") r' = (Return (Some "group"), r') ∧
        lookup_group_controller (Some "organization") r' =
          (Return (Some "organization"), r').
Proof. eexists. split; [vm_compute; reflexivity|]. split; vm_compute; reflexivity. Qed.

(** C5: after a registration pass that went through, both group slots
    are filled, and [lookup_group_plugin] returns the group fallback when
    the type is absent; the organization fallback when the type is
    ["organization"] and the table has no row for it; the row's plugin
    when the type has a row (in particular the plugin that declared the
    type in the pass); and the group fallback for any other type without a
    row. *)
Theorem lookup_group_plugin_after_registration
    (gs : list IGroupForm.plugin) (r0 r : registry) :
  register_group_plugins gs r0 = (Return tt, r) →
  ∃ group_fallback organization_fallback,
    _default_group_plugin r = Some group_fallback ∧
    _default_organization_plugin r = Some organization_fallback ∧
    lookup_group_plugin None r = (Return (Some group_fallback), r) ∧
    (_group_plugins r !! "organization" = None →
     lookup_group_plugin (Some "organization") r = (Return (Some organization_fallback), r)) ∧
    (∀ t plugin, _group_plugins r !! t = Some plugin →
       lookup_group_plugin (Some t) r = (Return (Some plugin), r)) ∧
    (∀ p t, p ∈ gs → t ∈ IGroupForm.group_types p →
       lookup_group_plugin (Some t) r = (Return (Some (GroupPlugin p)), r)) ∧
    (∀ t, t ≠ "organization" → _group_plugins r !! t = None →
       lookup_group_plugin (Some t) r = (Return (Some group_fallback), r)).
Proof.
  intros Hrun. rewrite register_group_plugins_eq in Hrun.
  destruct (for_in gs register_group_plugin r0) as [[[]|e] r1] eqn:Hloop; [|done].
  rewrite set_default_group_plugin_eq in Hrun. injection Hrun as <-.
  destruct (with_default_group_plugins_fields r1) as (Hplugins & Hg & Ho & _).
  eexists _, _. split; [exact Hg|]. split; [exact Ho|].
  split; [by unfold lookup_group_plugin, gets; rewrite Hg|].
  split; [|split; [|split]].
  - intros Hrow. by rewrite lookup_group_plugin_eq, Hrow, Ho.
  - intros t plugin Hrow. by rewrite lookup_group_plugin_eq, Hrow.
  - intros p t Hp Ht. rewrite lookup_group_plugin_eq, Hplugins.
    by destruct (register_group_loop_rows gs r0 r1 p t Hloop Hp Ht) as [-> _].
  - intros t Hne Hrow. rewrite lookup_group_plugin_eq, Hrow, Hg.
    by destruct (String.eqb_spec t "organization").
Qed.

Lemma lookup_group_plugin_after_registration_witness :
  ∃ r, register_group_plugins [group_b; group_f1] initial = (Return tt, r) ∧
       lookup_group_plugin None r = (Return (Some (GroupPlugin group_f1)), r) ∧
       lookup_group_plugin (Some "organization") r =
         (Return (Some DefaultOrganizationForm), r) ∧
       lookup_group_plugin (Some "beta") r = (Return (Some (GroupPlugin group_b)), r) ∧
       lookup_group_plugin (Some "zeta") r = (Return (Some (GroupPlugin group_f1)), r).
Proof.
  exists (snd (register_group_plugins [group_b; group_f1] initial)).
  split; [vm_compute; reflexivity|].
  destruct (lookup_group_plugin_after_registration [group_b; group_f1] initial
              (snd (register_group_plugins [group_b; group_f1] initial))
              ltac:(vm_compute; reflexivity))
    as (g & o & Hg & Ho & Habsent & Horganization & _ & Hdeclared & Hother).
  vm_compute in Hg, Ho. injection Hg as <-. injection Ho as <-.
  split; [exact Habsent|]. split; [apply Horganization; vm_compute; reflexivity|].
  split; [apply Hdeclared; simpl; set_solver|].
  apply Hother; [discriminate|vm_compute; reflexivity].
Defined.

(** C10: each of the three lookups returns and leaves the whole
    registry (every table, every slot) as it was; so after any sequence
    of lookups the registry is still the same, and a lookup made after
    the sequence answers what it answers when made at once. *)
Theorem lookups_leave_registry_unchanged :
  (∀ (r : registry) (t : option string),
     (∃ plugin, lookup_package_plugin t r = (Return plugin, r)) ∧
     (∃ plugin, lookup_group_plugin t r = (Return plugin, r)) ∧
     (∃ controller, lookup_group_controller t r = (Return controller, r))) ∧
  (∀ (r : registry) (before : list lookup_call) (call : lookup_call),
     for_in before (λ c, perform c >> ret tt) r = (Return tt, r) ∧
     (for_in before (λ c, perform c >> ret tt) >> perform call) r = perform call r).
Proof.
  split.
  - intros r t. split; [|split].
    + apply read_only_lookup_package_plugin.
    + apply read_only_lookup_group_plugin.
    + apply read_only_lookup_group_controller.
  - intros r before call.
    pose proof (lookup_sequence_read_only before r) as Hbefore.
    split; [done|]. unfold bind at 1. by rewrite Hbefore.
Qed.

(** ** Reset *)

Lemma respects_ret {A} (a : A) : respects (ret a).
Proof. by intros r1 r2 H. Qed.

Lemma respects_raise {A} e : respects (@raise A e).
Proof. by intros r1 r2 H. Qed.

Lemma respects_gets {A} (f : registry → A) :
  (∀ r1 r2, agree r1 r2 → f r1 = f r2) → respects (gets f).
Proof. intros Hf r1 r2 H. unfold gets. simpl. by rewrite (Hf r1 r2). Qed.

Lemma respects_modify (f : registry → registry) :
  (∀ r1 r2, agree r1 r2 → agree (f r1) (f r2)) → respects (modify f).
Proof. intros Hf r1 r2 H. unfold modify. simpl. auto. Qed.

Lemma respects_bind {A B} (m : M A) (k : A → M B) :
  respects m → (∀ a, respects (k a)) → respects (bind m k).
Proof.
  intros Hm Hk r1 r2 H. destruct (Hm r1 r2 H) as [Hfst Hsnd]. unfold bind.
  destruct (m r1) as [[a1|e1] r1'], (m r2) as [[a2|e2] r2']; simpl in *; simplify_eq;
    [by apply Hk|done].
Qed.

Lemma respects_for_in {A} (xs : list A) (body : A → M unit) :
  (∀ x, respects (body x)) → respects (for_in xs body).
Proof.
  intros Hbody. induction xs as [|x xs IH]; [apply respects_ret|].
  apply respects_bind; [apply Hbody|done].
Qed.

Ltac respectful :=
  repeat first
    [ apply respects_ret
    | apply respects_raise
    | apply respects_for_in; intros ?
    | apply respects_gets; by intros ? ? (? & ? & ? & ? & ? & ?)
    | apply respects_modify; intros ? ? (? & ? & ? & ? & ? & ?);
      unfold agree; simpl; by repeat split; try congruence
    | apply respects_bind; [|intros ?]
    | match goal with |- respects (match ?x with _ => _ end) => destruct x end ].

Lemma respects_register_package_plugins ps : respects (register_package_plugins ps).
Proof.
  unfold register_package_plugins, register_package_plugin, register_package_type,
    set_default_package_plugin, new_DefaultDatasetForm.
  respectful.
Qed.

Lemma respects_register_group_plugins gs : respects (register_group_plugins gs).
Proof.
  unfold register_group_plugins, register_group_plugin, register_group_type,
    set_default_group_plugin, new_DefaultGroupForm, new_DefaultOrganizationForm.
  respectful.
Qed.

Lemma respects_lookup_package_plugin t : respects (lookup_package_plugin t).
Proof. destruct t; unfold lookup_package_plugin; respectful. Qed.

Lemma respects_lookup_group_plugin t : respects (lookup_group_plugin t).
Proof. destruct t; unfold lookup_group_plugin; respectful. Qed.

Lemma respects_lookup_group_controller t : respects (lookup_group_controller t).
Proof. destruct t; unfold lookup_group_controller; respectful. Qed.

Lemma reset_agrees_with_initial r :
  agree (snd ((reset_package_plugins >> reset_group_plugins) r)) initial.
Proof. by repeat split. Qed.

(** C9, as amended: there are two resets, one per axis.
    [reset_package_plugins] empties the dataset table and the dataset
    slot and leaves the group axis as it was; [reset_group_plugins]
    empties the group table, the controller table and the group and
    organization slots and leaves the dataset axis as it was.  After both
    resets, a registration pass over any sequences of plugins has the
    outcome it has on the registry of a process that has just started, and
    every lookup (of a dataset plugin, of a group plugin, of a controller
    name) then answers the same on both. *)
Theorem reset_then_register_as_fresh :
  (∀ r, ∃ r1,
     reset_package_plugins r = (Return tt, r1) ∧
     _package_plugins r1 = ∅ ∧ _default_package_plugin r1 = None ∧
     _group_plugins r1 = _group_plugins r ∧
     _group_controllers r1 = _group_controllers r ∧
     _default_group_plugin r1 = _default_group_plugin r ∧
     _default_organization_plugin r1 = _default_organization_plugin r) ∧
  (∀ r, ∃ r1,
     reset_group_plugins r = (Return tt, r1) ∧
     _group_plugins r1 = ∅ ∧ _group_controllers r1 = ∅ ∧
     _default_group_plugin r1 = None ∧ _default_organization_plugin r1 = None ∧
     _package_plugins r1 = _package_plugins r ∧
     _default_package_plugin r1 = _default_package_plugin r) ∧
  (∀ r (ps : list IDatasetForm.plugin) (gs : list IGroupForm.plugin),
     let after_reset :=
       (reset_package_plugins >> reset_group_plugins >>
        register_package_plugins ps >> register_group_plugins gs) r in
     let fresh := (register_package_plugins ps >> register_group_plugins gs) initial in
     fst after_reset = fst fresh ∧
     ∀ t : option string,
       fst (lookup_package_plugin t (snd after_reset)) =
         fst (lookup_package_plugin t (snd fresh)) ∧
       fst (lookup_group_plugin t (snd after_reset)) =
         fst (lookup_group_plugin t (snd fresh)) ∧
       fst (lookup_group_controller t (snd after_reset)) =
         fst (lookup_group_controller t (snd fresh))).
Proof.
  split; [|split].
  - intros r. by eexists.
  - intros r. by eexists.
  - intros r ps gs after_reset fresh.
    assert (respects (register_package_plugins ps >> register_group_plugins gs)) as Hregister.
    { apply respects_bind; [apply respects_register_package_plugins|].
      intros _. apply respects_register_group_plugins. }
    destruct (Hregister _ _ (reset_agrees_with_initial r)) as [Hfst Hsnd].
    assert (after_reset =
            (register_package_plugins ps >> register_group_plugins gs)
              (snd ((reset_package_plugins >> reset_group_plugins) r))) as Hafter by done.
    rewrite Hafter. split; [exact Hfst|]. intros t. split; [|split].
    + by apply respects_lookup_package_plugin.
    + by apply respects_lookup_group_plugin.
    + by apply respects_lookup_group_controller.
Qed.

(** C9 as the specification states it does not hold: on a registry
    filled on both axes, [reset_package_plugins] leaves the group table
    and the group slots filled, and [reset_group_plugins] leaves the
    dataset table and the dataset slot filled. *)
Lemma reset_is_per_axis :
  let r := snd ((register_package_plugins [dataset_a] >>
                 register_group_plugins [group_b]) initial) in
  (∃ r1, reset_package_plugins r = (Return tt, r1) ∧
         _group_plugins r1 !! "beta" = Some (GroupPlugin group_b) ∧
         _default_group_plugin r1 = Some DefaultGroupForm ∧
         _default_organization_plugin r1 = Some DefaultOrganizationForm) ∧
  (∃ r2, reset_group_plugins r = (Return tt, r2) ∧
         _package_plugins r2 !! "alpha" = Some (DatasetPlugin dataset_a) ∧
         _default_package_plugin r2 = Some DefaultDatasetForm).
Proof.
  split; eexists; (split; [reflexivity|]); repeat split; vm_compute; reflexivity.
Qed.

(** * Further properties of the registry *)

(** ** What a registration pass leaves *)

(** After a pass over the dataset plugins that went through, every
    declared type has its row. *)
Lemma register_package_loop_rows ps r r' p t :
  for_in ps register_package_plugin r = (Return tt, r') →
  p ∈ ps → t ∈ IDatasetForm.package_types p →
  _package_plugins r' !! t = Some (DatasetPlugin p).
Proof.
  revert r. induction ps as [|h ps IH]; intros r Hrun Hp Ht; [by apply elem_of_nil in Hp|].
  rewrite for_in_cons in Hrun.
  destruct (register_package_plugin_cases h r)
    as [[_ Heq]|[(_ & _ & _ & Heq)|(_ & pre & t' & post & _ & _ & _ & _ & Heq)]];
    rewrite Heq in Hrun; [done| |done].
  set (r1 := write_package_plugins _ _) in Hrun.
  destruct (decide (t ∈ IDatasetForm.package_types h)) as [Hth|Hth].
  - assert (p = h) as ->.
    { apply elem_of_cons in Hp as [->|Hp]; [done|].
      destruct (register_package_loop_collision ps r1 p t) as (e & r2 & Hraise); [done..| |].
      - simpl. rewrite lookup_insert_all. by rewrite decide_True.
      - by rewrite Hraise in Hrun. }
    destruct (register_package_loop_frame _ _ _ _ Hrun) as (T & S & -> & Hsub & _).
    simpl in *. eapply lookup_weaken; [|exact Hsub].
    rewrite lookup_insert_all. by rewrite decide_True.
  - apply elem_of_cons in Hp as [->|Hp]; [done|]. by apply (IH r1).
Qed.

(** A declared type of a pass that went through was not a row before. *)
Lemma register_package_loop_new ps r r' p t :
  for_in ps register_package_plugin r = (Return tt, r') →
  p ∈ ps → t ∈ IDatasetForm.package_types p → _package_plugins r !! t = None.
Proof.
  intros Hrun Hp Ht. destruct (_package_plugins r !! t) as [x|] eqn:Hrow; [|done].
  destruct (register_package_loop_collision ps r p t) as (e & r2 & Hraise); [done..| |].
  - by rewrite Hrow.
  - by rewrite Hraise in Hrun.
Qed.

Lemma register_group_loop_new gs r r' p t :
  for_in gs register_group_plugin r = (Return tt, r') →
  p ∈ gs → t ∈ IGroupForm.group_types p → _group_plugins r !! t = None.
Proof.
  intros Hrun Hp Ht. destruct (_group_plugins r !! t) as [x|] eqn:Hrow; [|done].
  destruct (register_group_loop_collision gs r p t) as (e & r2 & Hraise); [done..| |].
  - by rewrite Hrow.
  - by rewrite Hraise in Hrun.
Qed.

(** The registry that [register_package_plugins] leaves has the table of
    the loop. *)
Lemma register_package_plugins_table_eq ps r :
  _package_plugins (snd (register_package_plugins ps r)) =
  _package_plugins (snd (for_in ps register_package_plugin r)).
Proof.
  rewrite register_package_plugins_eq.
  destruct (for_in ps register_package_plugin r) as [[[]|e] r1]; [|done].
  by destruct (_default_package_plugin r1).
Qed.

Lemma register_package_plugins_table_core
    (ps : list IDatasetForm.plugin) (r r' : registry) :
  register_package_plugins ps r = (Return tt, r') →
  (∀ t x, _package_plugins r' !! t = Some x ↔
          _package_plugins r !! t = Some x ∨
          ∃ p, p ∈ ps ∧ t ∈ IDatasetForm.package_types p ∧ x = DatasetPlugin p) ∧
  (∀ p t, p ∈ ps → t ∈ IDatasetForm.package_types p → _package_plugins r !! t = None).
Proof.
  intros Hrun.
  pose proof (register_package_plugins_table_eq ps r) as Htable.
  rewrite Hrun in Htable. simpl in Htable. rewrite Htable.
  rewrite register_package_plugins_eq in Hrun.
  destruct (for_in ps register_package_plugin r) as [[[]|e] r1] eqn:Hloop; [|done].
  clear Hrun Htable. simpl. split.
  - intros t x. split.
    + intros Hrow.
      destruct (register_package_loop_frame ps r _ r1 Hloop) as (T & S & -> & _ & Hrows & _).
      destruct (Hrows t x Hrow) as [?|(_ & p & ? & ? & ?)]; [by left|right; by exists p].
    + intros [Hold|(p & Hp & Ht & ->)].
      * destruct (register_package_loop_frame ps r _ r1 Hloop) as (T & S & -> & Hsub & _).
        by eapply lookup_weaken.
      * by apply (register_package_loop_rows ps r).
  - intros p t. by apply (register_package_loop_new ps r r1).
Qed.

(** X1: after a pass of [register_package_plugins] that went through, the
    dataset table holds exactly the rows it had before and one row for
    every type that a plugin of the pass declares, mapped to that plugin;
    none of the declared types was a row before. *)
Theorem register_package_plugins_table
    (ps : list IDatasetForm.plugin) (r r' : registry) :
  register_package_plugins ps r = (Return tt, r') →
  (∀ t x, _package_plugins r' !! t = Some x ↔
          _package_plugins r !! t = Some x ∨
          ∃ p, p ∈ ps ∧ t ∈ IDatasetForm.package_types p ∧ x = DatasetPlugin p) ∧
  (∀ p t, p ∈ ps → t ∈ IDatasetForm.package_types p → _package_plugins r !! t = None).
Proof. apply register_package_plugins_table_core. Qed.

Lemma register_package_plugins_table_witness :
  ∃ r', register_package_plugins [dataset_a; dataset_f2] initial = (Return tt, r') ∧
        _package_plugins r' !! "beta" = Some (DatasetPlugin dataset_a) ∧
        _package_plugins r' !! "gamma" = Some (DatasetPlugin dataset_f2).
Proof.
  exists (snd (register_package_plugins [dataset_a; dataset_f2] initial)).
  split; [vm_compute; reflexivity|].
  destruct (register_package_plugins_table [dataset_a; dataset_f2] initial
              (snd (register_package_plugins [dataset_a; dataset_f2] initial))
              ltac:(vm_compute; reflexivity)) as [Hrows _].
  split; apply Hrows; right.
  - exists dataset_a. simpl. set_solver.
  - exists dataset_f2. simpl. set_solver.
Defined.

(** X2: after a pass of [register_package_plugins] that went through,
    the fallback slot is filled, and [lookup_package_plugin] never returns
    [None]: it returns the fallback for an absent type and for a type
    without a row, the row's plugin for a type with a row, and for a type
    that a plugin of the pass declares, that plugin. *)
Theorem lookup_package_plugin_after_registration
    (ps : list IDatasetForm.plugin) (r0 r : registry) :
  register_package_plugins ps r0 = (Return tt, r) →
  ∃ fallback,
    _default_package_plugin r = Some fallback ∧
    lookup_package_plugin None r = (Return (Some fallback), r) ∧
    (∀ t plugin, _package_plugins r !! t = Some plugin →
       lookup_package_plugin (Some t) r = (Return (Some plugin), r)) ∧
    (∀ p t, p ∈ ps → t ∈ IDatasetForm.package_types p →
       lookup_package_plugin (Some t) r = (Return (Some (DatasetPlugin p)), r)) ∧
    (∀ t, _package_plugins r !! t = None →
       lookup_package_plugin (Some t) r = (Return (Some fallback), r)) ∧
    (∀ t, ∃ plugin, lookup_package_plugin t r = (Return (Some plugin), r)).
Proof.
  intros Hrun.
  destruct (register_package_plugins_table_core ps r0 r Hrun) as [Hrows _].
  assert (∃ fallback, _default_package_plugin r = Some fallback) as [fallback Hslot].
  { rewrite register_package_plugins_eq in Hrun.
    destruct (for_in ps register_package_plugin r0) as [[[]|e] r1]; [|done].
    injection Hrun as <-. destruct (_default_package_plugin r1) eqn:Hs; simpl; eauto. }
  assert (∀ t, lookup_package_plugin (Some t) r =
               (Return match _package_plugins r !! t with
                       | Some plugin => Some plugin
                       | None => Some fallback
                       end, r)) as Hlookup.
  { intros t. unfold lookup_package_plugin, bind, gets, ret. by rewrite Hslot. }
  exists fallback. split; [done|].
  split; [by unfold lookup_package_plugin, gets; rewrite Hslot|].
  split; [|split; [|split]].
  - intros t plugin Hrow. by rewrite Hlookup, Hrow.
  - intros p t Hp Ht. rewrite Hlookup.
    assert (_package_plugins r !! t = Some (DatasetPlugin p)) as ->; [|done].
    apply Hrows. right. by exists p.
  - intros t Hrow. by rewrite Hlookup, Hrow.
  - intros [t|].
    + rewrite Hlookup. destruct (_package_plugins r !! t); eauto.
    + exists fallback. by unfold lookup_package_plugin, gets; rewrite Hslot.
Qed.

Lemma lookup_package_plugin_after_registration_witness :
  ∃ r, register_package_plugins [dataset_a; dataset_f2] initial = (Return tt, r) ∧
       lookup_package_plugin None r = (Return (Some (DatasetPlugin dataset_f2)), r) ∧
       lookup_package_plugin (Some "alpha") r = (Return (Some (DatasetPlugin dataset_a)), r) ∧
       lookup_package_plugin (Some "zeta") r = (Return (Some (DatasetPlugin dataset_f2)), r).
Proof.
  exists (snd (register_package_plugins [dataset_a; dataset_f2] initial)).
  split; [vm_compute; reflexivity|].
  destruct (lookup_package_plugin_after_registration [dataset_a; dataset_f2] initial
              (snd (register_package_plugins [dataset_a; dataset_f2] initial))
              ltac:(vm_compute; reflexivity))
    as (fallback & Hslot & Habsent & _ & Hdeclared & Hother & _).
  vm_compute in Hslot. injection Hslot as <-.
  split; [exact Habsent|]. split; [apply Hdeclared; simpl; set_solver|].
  apply Hother. vm_compute. reflexivity.
Defined.


Lemma register_group_plugins_tables_core
    (gs : list IGroupForm.plugin) (r r' : registry) :
  register_group_plugins gs r = (Return tt, r') →
  (∀ t x, _group_plugins r' !! t = Some x ↔
          _group_plugins r !! t = Some x ∨
          ∃ p, p ∈ gs ∧ t ∈ IGroupForm.group_types p ∧ x = GroupPlugin p) ∧
  (∀ p t, p ∈ gs → t ∈ IGroupForm.group_types p →
          _group_plugins r !! t = None ∧
          _group_controllers r' !! t = Some (group_controller_of p)) ∧
  (∀ t, (∀ p, p ∈ gs → t ∉ IGroupForm.group_types p) →
        _group_controllers r' !! t =
          match _group_controllers r !! t with
          | Some controller => Some controller
          | None => if decide (t = "group") then Some "group"
                    else if decide (t = "organization") then Some "organization"
                    else None
          end).
Proof.
  intros Hrun. rewrite register_group_plugins_eq in Hrun.
  destruct (for_in gs register_group_plugin r) as [[[]|e] r1] eqn:Hloop; [|done].
  rewrite set_default_group_plugin_eq in Hrun. injection Hrun as <-.
  destruct (with_default_group_plugins_fields r1) as (-> & _ & _ & Hctl & _).
  split; [|split].
  - intros t x. split.
    + intros Hrow.
      destruct (register_group_loop_frame gs r _ r1 Hloop)
        as (T & C & SG & SO & -> & _ & Hrows & _).
      destruct (Hrows t x Hrow) as [?|(_ & p & ? & ? & ?)]; [by left|right; by exists p].
    + intros [Hold|(p & Hp & Ht & ->)].
      * destruct (register_group_loop_frame gs r _ r1 Hloop)
          as (T & C & SG & SO & -> & Hsub & _).
        by eapply lookup_weaken.
      * by destruct (register_group_loop_rows gs r r1 p t Hloop Hp Ht).
  - intros p t Hp Ht. split; [by apply (register_group_loop_new gs r r1 p)|].
    rewrite Hctl. by destruct (register_group_loop_rows gs r r1 p t Hloop Hp Ht) as [_ ->].
  - intros t Hnone. rewrite Hctl.
    destruct (register_group_loop_frame gs r _ r1 Hloop)
      as (T & C & SG & SO & -> & _ & _ & HC & _). simpl.
    destruct (HC t) as [->|(p & Hp & Ht & _)]; [done|]. by destruct (Hnone p Hp).
Qed.

(** X3: after a pass of [register_group_plugins] that went through, the
    group table holds exactly the rows it had before and one row for every
    type that a plugin of the pass declares; none of the declared types
    was a row before, and each is bound to the controller name of its
    plugin.  For a type that no plugin of the pass declares, the
    controller table has the name it had before, and, where it had none,
    the default name for the types ["group"] and ["organization"] and
    nothing for any other type. *)
Theorem register_group_plugins_tables
    (gs : list IGroupForm.plugin) (r r' : registry) :
  register_group_plugins gs r = (Return tt, r') →
  (∀ t x, _group_plugins r' !! t = Some x ↔
          _group_plugins r !! t = Some x ∨
          ∃ p, p ∈ gs ∧ t ∈ IGroupForm.group_types p ∧ x = GroupPlugin p) ∧
  (∀ p t, p ∈ gs → t ∈ IGroupForm.group_types p →
          _group_plugins r !! t = None ∧
          _group_controllers r' !! t = Some (group_controller_of p)) ∧
  (∀ t, (∀ p, p ∈ gs → t ∉ IGroupForm.group_types p) →
        _group_controllers r' !! t =
          match _group_controllers r !! t with
          | Some controller => Some controller
          | None => if decide (t = "group") then Some "group"
                    else if decide (t = "organization") then Some "organization"
                    else None
          end).
Proof. apply register_group_plugins_tables_core. Qed.

Lemma register_group_plugins_tables_witness :
  ∃ r', register_group_plugins [group_b; group_f1] initial = (Return tt, r') ∧
        _group_plugins r' !! "beta" = Some (GroupPlugin group_b) ∧
        _group_controllers r' !! "beta" = Some "organization" ∧
        _group_controllers r' !! "group" = Some "group".
Proof.
  exists (snd (register_group_plugins [group_b; group_f1] initial)).
  split; [vm_compute; reflexivity|].
  destruct (register_group_plugins_tables [group_b; group_f1] initial
              (snd (register_group_plugins [group_b; group_f1] initial))
              ltac:(vm_compute; reflexivity)) as (Hrows & Hdeclared & Hother).
  split; [|split].
  - apply Hrows. right. exists group_b. simpl. set_solver.
  - apply (Hdeclared group_b); simpl; set_solver.
  - rewrite Hother; [reflexivity|].
    intros p Hp. set_unfold. destruct Hp as [->|[->|[]]]; simpl; set_solver.
Defined.

Lemma register_package_plugins_frame_core (ps : list IDatasetForm.plugin) (r : registry) :
  let r' := snd (register_package_plugins ps r) in
  _package_plugins r ⊆ _package_plugins r' ∧
  _group_plugins r' = _group_plugins r ∧
  _group_controllers r' = _group_controllers r ∧
  _default_group_plugin r' = _default_group_plugin r ∧
  _default_organization_plugin r' = _default_organization_plugin r ∧
  _group_blueprints r' = _group_blueprints r.
Proof.
  simpl. rewrite register_package_plugins_eq.
  destruct (for_in ps register_package_plugin r) as [[[]|e] r1] eqn:Hloop;
    destruct (register_package_loop_frame ps r _ r1 Hloop) as (T & S & -> & Hsub & _);
    simpl; [|done].
  by destruct S.
Qed.

(** X4: whatever its outcome, [register_package_plugins] keeps every row
    of the dataset table as it was (no type changes its plugin), and
    leaves the group table, the controller table, the two group slots
    and the blueprints alone. *)
Theorem register_package_plugins_frame (ps : list IDatasetForm.plugin) (r : registry) :
  let r' := snd (register_package_plugins ps r) in
  _package_plugins r ⊆ _package_plugins r' ∧
  _group_plugins r' = _group_plugins r ∧
  _group_controllers r' = _group_controllers r ∧
  _default_group_plugin r' = _default_group_plugin r ∧
  _default_organization_plugin r' = _default_organization_plugin r ∧
  _group_blueprints r' = _group_blueprints r.
Proof. apply register_package_plugins_frame_core. Qed.

Lemma register_group_plugins_frame_core (gs : list IGroupForm.plugin) (r : registry) :
  let r' := snd (register_group_plugins gs r) in
  _group_plugins r ⊆ _group_plugins r' ∧
  _package_plugins r' = _package_plugins r ∧
  _default_package_plugin r' = _default_package_plugin r ∧
  _group_blueprints r' = _group_blueprints r.
Proof.
  simpl. rewrite register_group_plugins_eq.
  destruct (for_in gs register_group_plugin r) as [[[]|e] r1] eqn:Hloop;
    destruct (register_group_loop_frame gs r _ r1 Hloop)
      as (T & C & SG & SO & -> & Hsub & _); [|done].
  rewrite set_default_group_plugin_eq. simpl.
  set (r1 := write_group_controllers _ _).
  by destruct (with_default_group_plugins_fields r1) as (-> & _ & _ & _ & -> & -> & ->).
Qed.

(** X5: whatever its outcome, [register_group_plugins] keeps every row of
    the group table as it was, and leaves the dataset table, the dataset
    slot and the blueprints alone. *)
Theorem register_group_plugins_frame (gs : list IGroupForm.plugin) (r : registry) :
  let r' := snd (register_group_plugins gs r) in
  _group_plugins r ⊆ _group_plugins r' ∧
  _package_plugins r' = _package_plugins r ∧
  _default_package_plugin r' = _default_package_plugin r ∧
  _group_blueprints r' = _group_blueprints r.
Proof. apply register_group_plugins_frame_core. Qed.

(** X6: after a reset and until the next registration there is no
    fallback: whatever the type, [lookup_package_plugin] returns [None]
    after [reset_package_plugins], and [lookup_group_plugin] and
    [lookup_group_controller] return [None] after [reset_group_plugins]. *)
Theorem lookups_after_reset (r : registry) (t : option string) :
  fst (lookup_package_plugin t (snd (reset_package_plugins r))) = Return None ∧
  fst (lookup_group_plugin t (snd (reset_group_plugins r))) = Return None ∧
  fst (lookup_group_controller t (snd (reset_group_plugins r))) = Return None.
Proof.
  destruct t as [t|]; [|done].
  split; [|split].
  - unfold lookup_package_plugin, bind, gets, ret. simpl. by rewrite lookup_empty.
  - rewrite lookup_group_plugin_eq. simpl. rewrite lookup_empty.
    by destruct (String.eqb t "organization").
  - rewrite lookup_group_controller_eq. simpl. by rewrite lookup_empty.
Qed.

(** X7: registration is not repeatable without a reset: after a pass
    that went through, the same pass run again on the registry it left
    raises, as soon as one of its plugins declares a type. *)
Theorem registering_again_raises :
  (∀ (ps : list IDatasetForm.plugin) r r' p t,
     register_package_plugins ps r = (Return tt, r') →
     p ∈ ps → t ∈ IDatasetForm.package_types p →
     ∃ e r'', register_package_plugins ps r' = (Raise e, r'')) ∧
  (∀ (gs : list IGroupForm.plugin) r r' p t,
     register_group_plugins gs r = (Return tt, r') →
     p ∈ gs → t ∈ IGroupForm.group_types p →
     ∃ e r'', register_group_plugins gs r' = (Raise e, r'')).
Proof.
  split.
  - intros ps r r' p t Hrun Hp Ht.
    destruct (register_package_plugins_table_core ps r r' Hrun) as [Hrows _].
    destruct (register_package_loop_collision ps r' p t Hp Ht) as (e & r'' & Hraise).
    + exists (DatasetPlugin p). apply Hrows. right. by exists p.
    + exists e, r''. by apply register_package_plugins_raise.
  - intros gs r r' p t Hrun Hp Ht.
    destruct (register_group_plugins_tables_core gs r r' Hrun) as [Hrows _].
    destruct (register_group_loop_collision gs r' p t Hp Ht) as (e & r'' & Hraise).
    + exists (GroupPlugin p). apply Hrows. right. by exists p.
    + exists e, r''. by apply register_group_plugins_raise.
Qed.

Lemma registering_again_raises_witness :
  (∃ e r'', register_package_plugins [dataset_a]
              (snd (register_package_plugins [dataset_a] initial)) = (Raise e, r'')) ∧
  (∃ e r'', register_group_plugins [group_b]
              (snd (register_group_plugins [group_b] initial)) = (Raise e, r'')).
Proof.
  split.
  - apply (proj1 registering_again_raises [dataset_a] initial _ dataset_a "alpha").
    + vm_compute. reflexivity.
    + set_solver.
    + simpl. set_solver.
  - apply (proj2 registering_again_raises [group_b] initial _ group_b "beta").
    + vm_compute. reflexivity.
    + set_solver.
    + simpl. set_solver.
Defined.

(** ** When a pass over the dataset plugins goes through *)

Lemma dataset_slot_occupied_step h table r :
  dataset_slot_occupied (write_package_plugins table (dataset_claim h r)) =
  if IDatasetForm.is_fallback h
  then negb (IDatasetForm.extends_DefaultDatasetForm h)
  else dataset_slot_occupied r.
Proof. unfold dataset_claim. by destruct (IDatasetForm.is_fallback h). Qed.

Lemma register_package_plugin_success p r :
  dataset_fallback_conflict p r = false →
  NoDup (IDatasetForm.package_types p) →
  (∀ t, t ∈ IDatasetForm.package_types p → _package_plugins r !! t = None) →
  register_package_plugin p r =
    (Return tt,
     write_package_plugins
       (insert_all (IDatasetForm.package_types p) (DatasetPlugin p) (_package_plugins r))
       (dataset_claim p r)).
Proof.
  intros Hc Hnd Hfresh.
  destruct (register_package_plugin_cases p r)
    as [[Hc' _]|[(_ & _ & _ & Heq)|(_ & pre & t & post & Hsplit & _ & _ & Ht & _)]];
    [congruence|done|exfalso].
  rewrite Hsplit in Hnd, Hfresh. destruct Ht as [Hin|Hsome].
  - apply NoDup_app in Hnd as (_ & Hd & _). apply (Hd t); [done|by left].
  - rewrite Hfresh in Hsome; [by destruct Hsome|]. set_solver.
Qed.

Lemma register_package_loop_returns_iff ps r :
  (∃ r', for_in ps register_package_plugin r = (Return tt, r')) ↔
  NoDup (concat (IDatasetForm.package_types <$> ps)) ∧
  (∀ t, t ∈ concat (IDatasetForm.package_types <$> ps) → _package_plugins r !! t = None) ∧
  dataset_claims_accepted (dataset_slot_occupied r) ps = true.
Proof.
  revert r. induction ps as [|h ps IH]; intros r.
  { split; [|by eexists]. intros _. split; [constructor|].
    split; [by intros ? ?%elem_of_nil|done]. }
  rewrite for_in_cons, fmap_cons. cbn [concat dataset_claims_accepted].
  assert (dataset_fallback_conflict h r =
          IDatasetForm.is_fallback h && dataset_slot_occupied r) as Hconflict by done.
  split.
  - intros [r' Hrun].
    destruct (register_package_plugin_cases h r)
      as [[_ Heq]|[(Hc & Hnd & Hfresh & Heq)|(_ & pre & t' & post & _ & _ & _ & _ & Heq)]];
      rewrite Heq in Hrun; [done| |done].
    set (r1 := write_package_plugins _ _) in Hrun.
    destruct (proj1 (IH r1) (ex_intro _ r' Hrun)) as (Hnd' & Hfresh' & Hacc).
    assert (∀ t, t ∈ concat (IDatasetForm.package_types <$> ps) →
                 (t ∉ IDatasetForm.package_types h) ∧ _package_plugins r !! t = None) as Hrest.
    { intros t Ht. specialize (Hfresh' t Ht). subst r1. simpl in Hfresh'.
      rewrite lookup_insert_all in Hfresh'. by case_decide. }
    split; [|split].
    + apply NoDup_app. split; [done|]. split; [|done].
      intros t Hth Ht. by destruct (Hrest t Ht).
    + intros t [Hth|Ht]%elem_of_app; [by apply Hfresh|by apply Hrest].
    + subst r1. rewrite dataset_slot_occupied_step in Hacc. rewrite Hconflict in Hc.
      destruct (IDatasetForm.is_fallback h); [|done].
      simpl in Hc. by rewrite Hc.
  - intros (Hnd & Hfresh & Hacc).
    apply NoDup_app in Hnd as (Hnd1 & Hdisj & Hnd2).
    assert (dataset_fallback_conflict h r = false) as Hc.
    { rewrite Hconflict. destruct (IDatasetForm.is_fallback h); [|done].
      apply andb_true_iff in Hacc as [Hfree _]. by destruct (dataset_slot_occupied r). }
    rewrite (register_package_plugin_success h r Hc Hnd1);
      [|intros t Ht; apply Hfresh; set_solver].
    apply IH. split; [done|]. split.
    + intros t Ht. simpl. rewrite lookup_insert_all.
      rewrite decide_False by (intros Hin; by apply (Hdisj t)).
      apply Hfresh. set_solver.
    + rewrite dataset_slot_occupied_step.
      destruct (IDatasetForm.is_fallback h); [|done].
      by apply andb_true_iff in Hacc as [_ ?].
Qed.

Lemma register_package_plugins_returns_iff_core
    (ps : list IDatasetForm.plugin) (r : registry) :
  (∃ r', register_package_plugins ps r = (Return tt, r')) ↔
  NoDup (concat (IDatasetForm.package_types <$> ps)) ∧
  (∀ t, t ∈ concat (IDatasetForm.package_types <$> ps) → _package_plugins r !! t = None) ∧
  dataset_claims_accepted (dataset_slot_occupied r) ps = true.
Proof.
  rewrite <- register_package_loop_returns_iff, register_package_plugins_eq.
  destruct (for_in ps register_package_plugin r) as [[[]|e] r1]; split;
    intros [r' Hrun]; try done; eauto.
Qed.

(** X8: [register_package_plugins] goes through exactly when no type of
    the pass is declared twice or is already a row of the table, and
    every fallback claim finds the slot empty or held by an instance of
    [DefaultDatasetForm] (the default instance, or an earlier fallback
    plugin whose class derives from it). *)
Theorem register_package_plugins_returns_iff
    (ps : list IDatasetForm.plugin) (r : registry) :
  (∃ r', register_package_plugins ps r = (Return tt, r')) ↔
  NoDup (concat (IDatasetForm.package_types <$> ps)) ∧
  (∀ t, t ∈ concat (IDatasetForm.package_types <$> ps) → _package_plugins r !! t = None) ∧
  dataset_claims_accepted (dataset_slot_occupied r) ps = true.
Proof. apply register_package_plugins_returns_iff_core. Qed.

(** The slot after a pass that went through: the last plugin that
    claimed it, or what it held. *)
Lemma register_package_loop_slot_last ps r r' :
  for_in ps register_package_plugin r = (Return tt, r') →
  _default_package_plugin r' =
    match last (dataset_claimants ps) with
    | Some p => Some (DatasetPlugin p)
    | None => _default_package_plugin r
    end ∧
  constructed r' = constructed r.
Proof.
  revert r. induction ps as [|h ps IH]; intros r Hrun.
  { simpl in Hrun. unfold ret in Hrun. by injection Hrun as <-. }
  rewrite for_in_cons in Hrun.
  destruct (register_package_plugin_cases h r)
    as [[_ Heq]|[(_ & _ & _ & Heq)|(_ & pre & t' & post & _ & _ & _ & _ & Heq)]];
    rewrite Heq in Hrun; [done| |done].
  destruct (IH _ Hrun) as [-> ->]. unfold dataset_claimants, dataset_claim.
  rewrite filter_cons.
  destruct (IDatasetForm.is_fallback h) eqn:Hfb.
  - rewrite decide_True by done. rewrite last_cons.
    by destruct (last (filter _ ps)).
  - rewrite decide_False by done. done.
Qed.

Lemma register_package_plugins_fallback_core
    (ps : list IDatasetForm.plugin) (r r' : registry) :
  register_package_plugins ps r = (Return tt, r') →
  match last (dataset_claimants ps), _default_package_plugin r with
  | Some p, _ =>
      _default_package_plugin r' = Some (DatasetPlugin p) ∧ constructed r' = constructed r
  | None, Some form =>
      _default_package_plugin r' = Some form ∧ constructed r' = constructed r
  | None, None =>
      _default_package_plugin r' = Some DefaultDatasetForm ∧
      constructed r' = cls_DefaultDatasetForm :: constructed r
  end.
Proof.
  intros Hrun. rewrite register_package_plugins_eq in Hrun.
  destruct (for_in ps register_package_plugin r) as [[[]|e] r1] eqn:Hloop; [|done].
  destruct (register_package_loop_slot_last ps r r1 Hloop) as [Hslot Hlog].
  injection Hrun as <-. rewrite Hslot.
  destruct (last (dataset_claimants ps)); [done|].
  destruct (_default_package_plugin r); [done|]. simpl. by rewrite Hlog.
Qed.

(** X9: after a pass of [register_package_plugins] that went through,
    the fallback is the last plugin of the pass that claimed it; when no
    plugin claimed it, the slot keeps what it held, and only when it held
    nothing is [DefaultDatasetForm] constructed, once. *)
Theorem register_package_plugins_fallback
    (ps : list IDatasetForm.plugin) (r r' : registry) :
  register_package_plugins ps r = (Return tt, r') →
  match last (dataset_claimants ps), _default_package_plugin r with
  | Some p, _ =>
      _default_package_plugin r' = Some (DatasetPlugin p) ∧ constructed r' = constructed r
  | None, Some form =>
      _default_package_plugin r' = Some form ∧ constructed r' = constructed r
  | None, None =>
      _default_package_plugin r' = Some DefaultDatasetForm ∧
      constructed r' = cls_DefaultDatasetForm :: constructed r
  end.
Proof. apply register_package_plugins_fallback_core. Qed.

Lemma register_package_plugins_fallback_witness :
  _default_package_plugin (snd (register_package_plugins [dataset_derived; dataset_f2] initial)) =
    Some (DatasetPlugin dataset_f2) ∧
  constructed (snd (register_package_plugins [dataset_derived; dataset_f2] initial)) = [].
Proof.
  exact (register_package_plugins_fallback [dataset_derived; dataset_f2] initial
           (snd (register_package_plugins [dataset_derived; dataset_f2] initial))
           ltac:(vm_compute; reflexivity)).
Defined.

(** ** The order of the plugins *)

Lemma concat_fmap_Permutation {A B} (f : A → list B) (l l' : list A) :
  l ≡ₚ l' → concat (f <$> l) ≡ₚ concat (f <$> l').
Proof.
  induction 1 as [|x l l' _ IH|x y l|l l' l'' _ IH1 _ IH2]; simpl.
  - done.
  - by rewrite IH.
  - rewrite !app_assoc. f_equiv. apply Permutation_app_comm.
  - by etrans.
Qed.

Lemma dataset_claims_accepted_no_claimant occupied ps :
  dataset_claimants ps = [] → dataset_claims_accepted occupied ps = true.
Proof.
  unfold dataset_claimants. induction ps as [|h ps IH]; [done|].
  rewrite filter_cons. simpl. destruct (IDatasetForm.is_fallback h).
  - by rewrite decide_True.
  - rewrite decide_False by done. apply IH.
Qed.

Lemma dataset_claims_accepted_one_claimant occupied ps :
  length (dataset_claimants ps) ≤ 1 →
  dataset_claims_accepted occupied ps = true ↔ dataset_claimants ps = [] ∨ occupied = false.
Proof.
  revert occupied. unfold dataset_claimants.
  induction ps as [|h ps IH]; intros occupied Hone; [naive_solver|].
  rewrite filter_cons in *. simpl. destruct (IDatasetForm.is_fallback h).
  - rewrite decide_True in * by done. simpl in Hone.
    assert (filter (λ p, IDatasetForm.is_fallback p = true) ps = []) as Hnil
      by (apply length_zero_iff_nil; lia).
    rewrite (dataset_claims_accepted_no_claimant _ ps Hnil).
    destruct occupied; naive_solver.
  - rewrite decide_False in * by done. by apply IH.
Qed.

(** X10: with at most one plugin that claims the fallback, the order of
    the dataset plugins does not matter: when a pass goes through, the
    pass over any reordering of its plugins goes through too and leaves
    the same registry. *)
Theorem register_package_plugins_order
    (ps ps' : list IDatasetForm.plugin) (r r1 : registry) :
  ps ≡ₚ ps' → length (dataset_claimants ps) ≤ 1 →
  register_package_plugins ps r = (Return tt, r1) →
  register_package_plugins ps' r = (Return tt, r1).
Proof.
  intros Hperm Hone Hrun.
  assert (dataset_claimants ps ≡ₚ dataset_claimants ps') as Hclaimants
    by (unfold dataset_claimants; by rewrite Hperm).
  assert (dataset_claimants ps' = dataset_claimants ps) as Hsame.
  { destruct (dataset_claimants ps) as [|c [|c' cs]] eqn:Hc; simpl in Hone; [| |lia].
    - by apply Permutation_nil_l in Hclaimants.
    - by apply Permutation_singleton_l in Hclaimants. }
  destruct (proj2 (register_package_plugins_returns_iff_core ps' r)) as [r2 Hrun'].
  { destruct (proj1 (register_package_plugins_returns_iff_core ps r) (ex_intro _ r1 Hrun))
      as (Hnd & Hfresh & Hacc).
    pose proof (concat_fmap_Permutation IDatasetForm.package_types ps ps' Hperm) as Hconcat.
    split; [by rewrite <- Hconcat|]. split.
    - intros t Ht. apply Hfresh. by rewrite Hconcat.
    - apply dataset_claims_accepted_one_claimant; [rewrite Hsame; lia|].
      rewrite Hsame. by apply dataset_claims_accepted_one_claimant. }
  rewrite Hrun'. f_equal.
  assert (_package_plugins r2 = _package_plugins r1) as Htable.
  { apply map_eq. intros t. apply option_eq. intros x.
    rewrite (proj1 (register_package_plugins_table_core ps r r1 Hrun) t x).
    rewrite (proj1 (register_package_plugins_table_core ps' r r2 Hrun') t x).
    split; (intros [?|(p & Hp & ?)]; [by left|right; exists p; split; [|done]]).
    - by rewrite Hperm.
    - by rewrite <- Hperm. }
  pose proof (register_package_plugins_fallback_core ps r r1 Hrun) as Hslot1.
  pose proof (register_package_plugins_fallback_core ps' r r2 Hrun') as Hslot2.
  rewrite Hsame in Hslot2.
  assert (_default_package_plugin r2 = _default_package_plugin r1 ∧
          constructed r2 = constructed r1) as [Hslot Hlog].
  { destruct (last (dataset_claimants ps)), (_default_package_plugin r);
      destruct Hslot1 as [-> ->], Hslot2 as [-> ->]; done. }
  pose proof (register_package_plugins_frame_core ps r) as Hframe1.
  pose proof (register_package_plugins_frame_core ps' r) as Hframe2.
  rewrite Hrun in Hframe1. rewrite Hrun' in Hframe2. simpl in Hframe1, Hframe2.
  destruct Hframe1 as (_ & Hgp1 & Hgc1 & Hdg1 & Hdo1 & Hbp1).
  destruct Hframe2 as (_ & Hgp2 & Hgc2 & Hdg2 & Hdo2 & Hbp2).
  destruct r1, r2. simpl in *. congruence.
Qed.

Lemma register_package_plugins_order_witness :
  register_package_plugins [dataset_f2; dataset_a] initial =
  (Return tt, snd (register_package_plugins [dataset_a; dataset_f2] initial)).
Proof.
  apply (register_package_plugins_order [dataset_a; dataset_f2]).
  - apply perm_swap.
  - vm_compute. lia.
  - vm_compute. reflexivity.
Defined.

(** With two plugins that claim the fallback the order matters: a plugin
    derived from [DefaultDatasetForm] is replaced by a later claim, while
    a claim after a plugin that is not derived from it raises. *)
Example two_claims_order_matters :
  (∃ r', register_package_plugins [dataset_derived; dataset_f2] initial = (Return tt, r')) ∧
  (∃ r', register_package_plugins [dataset_f2; dataset_derived] initial =
           (Raise MoreThanOneFallbackIDatasetForm, r')).
Proof. split; eexists; vm_compute; reflexivity. Qed.

(** ** When a pass over the group plugins goes through *)

Lemma axis_occupied_step organization h plugins controllers r :
  axis_occupied organization
    (write_group_controllers controllers (write_group_plugins plugins (group_claim h r))) =
  if IGroupForm.is_fallback h && bool_decide (is_organization_of h = organization)
  then negb (axis_default_instance h)
  else axis_occupied organization r.
Proof.
  unfold group_claim, axis_occupied, axis_default_instance.
  by destruct (IGroupForm.is_fallback h), (is_organization_of h), organization.
Qed.

Lemma register_group_loop_returns_iff gs r :
  (∃ r', for_in gs register_group_plugin r = (Return tt, r')) ↔
  NoDup (concat (IGroupForm.group_types <$> gs)) ∧
  (∀ t, t ∈ concat (IGroupForm.group_types <$> gs) → _group_plugins r !! t = None) ∧
  group_claims_accepted (axis_occupied false r) (axis_occupied true r) gs = true.
Proof.
  revert r. induction gs as [|h gs IH]; intros r.
  { split; [|by eexists]. intros _. split; [constructor|].
    split; [by intros ? ?%elem_of_nil|done]. }
  rewrite for_in_cons, fmap_cons. cbn [concat group_claims_accepted].
  split.
  - intros [r' Hrun].
    destruct (register_group_plugin_cases h r)
      as [[_ Heq]|[(Hc & Hnd & Hfresh & Heq)|(_ & pre & t' & post & _ & _ & _ & _ & Heq)]];
      rewrite Heq in Hrun; [done| |done].
    set (r1 := write_group_controllers _ _) in Hrun.
    destruct (proj1 (IH r1) (ex_intro _ r' Hrun)) as (Hnd' & Hfresh' & Hacc).
    assert (∀ t, t ∈ concat (IGroupForm.group_types <$> gs) →
                 (t ∉ IGroupForm.group_types h) ∧ _group_plugins r !! t = None) as Hrest.
    { intros t Ht. specialize (Hfresh' t Ht). subst r1. simpl in Hfresh'.
      rewrite lookup_insert_all in Hfresh'. by case_decide. }
    split; [|split].
    + apply NoDup_app. split; [done|]. split; [|done].
      intros t Hth Ht. by destruct (Hrest t Ht).
    + intros t [Hth|Ht]%elem_of_app; [by apply Hfresh|by apply Hrest].
    + subst r1. rewrite !axis_occupied_step in Hacc.
      rewrite group_fallback_conflict_eq in Hc.
      destruct (IGroupForm.is_fallback h); [|done].
      destruct (is_organization_of h); simpl in *; by rewrite Hc.
  - intros (Hnd & Hfresh & Hacc).
    apply NoDup_app in Hnd as (Hnd1 & Hdisj & Hnd2).
    assert (group_fallback_conflict h r = false) as Hc.
    { rewrite group_fallback_conflict_eq. destruct (IGroupForm.is_fallback h); [|done].
      destruct (is_organization_of h); apply andb_true_iff in Hacc as [Hfree _];
        simpl; by apply negb_true_iff. }
    rewrite (register_group_plugin_success h r Hc Hnd1);
      [|intros t Ht; apply Hfresh; set_solver].
    apply IH. split; [done|]. split.
    + intros t Ht. simpl. rewrite lookup_insert_all.
      rewrite decide_False by (intros Hin; by apply (Hdisj t)).
      apply Hfresh. set_solver.
    + rewrite !axis_occupied_step.
      destruct (IGroupForm.is_fallback h); [|done].
      destruct (is_organization_of h); simpl; by apply andb_true_iff in Hacc as [_ ?].
Qed.

Lemma register_group_plugins_returns_iff_core (gs : list IGroupForm.plugin) (r : registry) :
  (∃ r', register_group_plugins gs r = (Return tt, r')) ↔
  NoDup (concat (IGroupForm.group_types <$> gs)) ∧
  (∀ t, t ∈ concat (IGroupForm.group_types <$> gs) → _group_plugins r !! t = None) ∧
  group_claims_accepted (axis_occupied false r) (axis_occupied true r) gs = true.
Proof.
  rewrite <- register_group_loop_returns_iff, register_group_plugins_eq.
  destruct (for_in gs register_group_plugin r) as [[[]|e] r1]; split;
    intros [r' Hrun]; try done; [eauto|].
  rewrite set_default_group_plugin_eq. eauto.
Qed.

(** X11: [register_group_plugins] goes through exactly when no type of
    the pass is declared twice or is already a row of the group table,
    and every fallback claim finds the slot of its axis empty or held by
    an instance of the axis's default class. *)
Theorem register_group_plugins_returns_iff (gs : list IGroupForm.plugin) (r : registry) :
  (∃ r', register_group_plugins gs r = (Return tt, r')) ↔
  NoDup (concat (IGroupForm.group_types <$> gs)) ∧
  (∀ t, t ∈ concat (IGroupForm.group_types <$> gs) → _group_plugins r !! t = None) ∧
  group_claims_accepted (axis_occupied false r) (axis_occupied true r) gs = true.
Proof. apply register_group_plugins_returns_iff_core. Qed.

Lemma register_group_loop_slots_last gs r r' :
  for_in gs register_group_plugin r = (Return tt, r') →
  _default_group_plugin r' =
    match last (group_claimants false gs) with
    | Some p => Some (GroupPlugin p)
    | None => _default_group_plugin r
    end ∧
  _default_organization_plugin r' =
    match last (group_claimants true gs) with
    | Some p => Some (GroupPlugin p)
    | None => _default_organization_plugin r
    end ∧
  constructed r' = constructed r.
Proof.
  revert r. induction gs as [|h gs IH]; intros r Hrun.
  { simpl in Hrun. unfold ret in Hrun. by injection Hrun as <-. }
  rewrite for_in_cons in Hrun.
  destruct (register_group_plugin_cases h r)
    as [[_ Heq]|[(_ & _ & _ & Heq)|(_ & pre & t' & post & _ & _ & _ & _ & Heq)]];
    rewrite Heq in Hrun; [done| |done].
  destruct (IH _ Hrun) as (-> & -> & ->). unfold group_claimants, group_claim.
  rewrite !filter_cons.
  destruct (IGroupForm.is_fallback h) eqn:Hfb, (is_organization_of h) eqn:Horg;
    repeat case_decide; try naive_solver; rewrite ?last_cons; simpl;
    repeat split; try done;
    by destruct (last (filter _ gs)).
Qed.

Lemma register_group_plugins_fallbacks_core
    (gs : list IGroupForm.plugin) (r r' : registry) :
  register_group_plugins gs r = (Return tt, r') →
  _default_group_plugin r' =
    Some match last (group_claimants false gs) with
         | Some p => GroupPlugin p
         | None => default DefaultGroupForm (_default_group_plugin r)
         end ∧
  _default_organization_plugin r' =
    Some match last (group_claimants true gs) with
         | Some p => GroupPlugin p
         | None => default DefaultOrganizationForm (_default_organization_plugin r)
         end ∧
  constructed r' =
    match last (group_claimants true gs), _default_organization_plugin r with
    | None, None => [cls_DefaultOrganizationForm]
    | _, _ => []
    end ++
    match last (group_claimants false gs), _default_group_plugin r with
    | None, None => [cls_DefaultGroupForm]
    | _, _ => []
    end ++ constructed r.
Proof.
  intros Hrun. rewrite register_group_plugins_eq in Hrun.
  destruct (for_in gs register_group_plugin r) as [[[]|e] r1] eqn:Hloop; [|done].
  destruct (register_group_loop_slots_last gs r r1 Hloop) as (Hg & Ho & Hlog).
  rewrite set_default_group_plugin_eq in Hrun. injection Hrun as <-.
  destruct (with_default_group_plugins_fields r1) as (_ & -> & -> & _).
  rewrite constructed_with_default_group_plugins, Hg, Ho, Hlog.
  destruct (last (group_claimants false gs)), (last (group_claimants true gs)),
    (_default_group_plugin r), (_default_organization_plugin r); done.
Qed.

(** X12: after a pass of [register_group_plugins] that went through,
    the fallback of each axis is the last plugin of the pass that claimed
    that axis; where no plugin claimed it, the slot keeps what it held,
    or an instance of the axis's default class when it held nothing. *)
Theorem register_group_plugins_fallbacks
    (gs : list IGroupForm.plugin) (r r' : registry) :
  register_group_plugins gs r = (Return tt, r') →
  _default_group_plugin r' =
    Some match last (group_claimants false gs) with
         | Some p => GroupPlugin p
         | None => default DefaultGroupForm (_default_group_plugin r)
         end ∧
  _default_organization_plugin r' =
    Some match last (group_claimants true gs) with
         | Some p => GroupPlugin p
         | None => default DefaultOrganizationForm (_default_organization_plugin r)
         end ∧
  constructed r' =
    match last (group_claimants true gs), _default_organization_plugin r with
    | None, None => [cls_DefaultOrganizationForm]
    | _, _ => []
    end ++
    match last (group_claimants false gs), _default_group_plugin r with
    | None, None => [cls_DefaultGroupForm]
    | _, _ => []
    end ++ constructed r.
Proof. apply register_group_plugins_fallbacks_core. Qed.

Lemma register_group_plugins_fallbacks_witness :
  _default_group_plugin (snd (register_group_plugins [group_f1; organization_f] initial)) =
    Some (GroupPlugin group_f1) ∧
  _default_organization_plugin
    (snd (register_group_plugins [group_f1; organization_f] initial)) =
    Some (GroupPlugin organization_f) ∧
  constructed (snd (register_group_plugins [group_f1; organization_f] initial)) = [].
Proof.
  exact (register_group_plugins_fallbacks [group_f1; organization_f] initial
           (snd (register_group_plugins [group_f1; organization_f] initial))
           ltac:(vm_compute; reflexivity)).
Defined.

Lemma group_claims_accepted_one_claimant group_occupied organization_occupied gs :
  length (group_claimants false gs) ≤ 1 → length (group_claimants true gs) ≤ 1 →
  group_claims_accepted group_occupied organization_occupied gs = true ↔
  (group_claimants false gs = [] ∨ group_occupied = false) ∧
  (group_claimants true gs = [] ∨ organization_occupied = false).
Proof.
  revert group_occupied organization_occupied. unfold group_claimants.
  induction gs as [|h gs IH]; intros og oo Hg Ho.
  { split; [|done]. intros _. split; by left. }
  rewrite !filter_cons in Hg, Ho. rewrite !filter_cons.
  cbn [group_claims_accepted].
  destruct (IGroupForm.is_fallback h), (is_organization_of h).
  - rewrite decide_False in Hg |- * by (intros [_ ?]; done).
    rewrite decide_True in Ho |- * by done. simpl in Ho.
    assert (filter (λ p, IGroupForm.is_fallback p = true ∧ is_organization_of p = true) gs = [])
      as Hnil by (apply length_zero_iff_nil; lia).
    rewrite andb_true_iff, negb_true_iff, (IH _ _ Hg) by (rewrite Hnil; simpl; lia).
    rewrite Hnil. split.
    + intros (? & ? & _). split; [done|by right].
    + intros (? & [?|?]); [done|]. split; [done|]. split; [done|by left].
  - rewrite decide_True in Hg |- * by done.
    rewrite decide_False in Ho |- * by (intros [_ ?]; done). simpl in Hg.
    assert (filter (λ p, IGroupForm.is_fallback p = true ∧ is_organization_of p = false) gs = [])
      as Hnil by (apply length_zero_iff_nil; lia).
    rewrite andb_true_iff, negb_true_iff, IH by (rewrite ?Hnil; simpl; lia).
    rewrite Hnil. split.
    + intros (? & _ & ?). split; [by right|done].
    + intros ([?|?] & ?); [done|]. split; [done|]. split; [by left|done].
  - rewrite decide_False in Hg |- * by (intros [? _]; done).
    rewrite decide_False in Ho |- * by (intros [? _]; done). by apply IH.
  - rewrite decide_False in Hg |- * by (intros [? _]; done).
    rewrite decide_False in Ho |- * by (intros [? _]; done). by apply IH.
Qed.

Lemma short_Permutation_eq {A} (l l' : list A) : length l ≤ 1 → l ≡ₚ l' → l' = l.
Proof.
  destruct l as [|x [|y l]]; simpl; intros Hone Hperm; [| |lia].
  - by apply Permutation_nil_l in Hperm.
  - by apply Permutation_singleton_l in Hperm.
Qed.

(** X13: with at most one plugin that claims the fallback of each axis,
    the order of the group plugins does not matter: when a pass goes
    through, the pass over any reordering of its plugins goes through
    too and leaves the same registry. *)
Theorem register_group_plugins_order
    (gs gs' : list IGroupForm.plugin) (r r1 : registry) :
  gs ≡ₚ gs' →
  length (group_claimants false gs) ≤ 1 → length (group_claimants true gs) ≤ 1 →
  register_group_plugins gs r = (Return tt, r1) →
  register_group_plugins gs' r = (Return tt, r1).
Proof.
  intros Hperm Hg Ho Hrun.
  assert (group_claimants false gs' = group_claimants false gs) as Hsameg.
  { apply short_Permutation_eq; [done|]. unfold group_claimants. by rewrite Hperm. }
  assert (group_claimants true gs' = group_claimants true gs) as Hsameo.
  { apply short_Permutation_eq; [done|]. unfold group_claimants. by rewrite Hperm. }
  destruct (proj2 (register_group_plugins_returns_iff_core gs' r)) as [r2 Hrun'].
  { destruct (proj1 (register_group_plugins_returns_iff_core gs r) (ex_intro _ r1 Hrun))
      as (Hnd & Hfresh & Hacc).
    pose proof (concat_fmap_Permutation IGroupForm.group_types gs gs' Hperm) as Hconcat.
    split; [by rewrite <- Hconcat|]. split.
    - intros t Ht. apply Hfresh. by rewrite Hconcat.
    - apply group_claims_accepted_one_claimant; [rewrite ?Hsameg, ?Hsameo; lia..|].
      rewrite Hsameg, Hsameo. by apply group_claims_accepted_one_claimant. }
  rewrite Hrun'. f_equal.
  destruct (register_group_plugins_tables_core gs r r1 Hrun) as (Hrows1 & Hdeclared1 & Hother1).
  destruct (register_group_plugins_tables_core gs' r r2 Hrun') as (Hrows2 & Hdeclared2 & Hother2).
  assert (_group_plugins r2 = _group_plugins r1) as Hplugins.
  { apply map_eq. intros t. apply option_eq. intros x. rewrite Hrows1, Hrows2.
    split; (intros [?|(p & Hp & ?)]; [by left|right; exists p; split; [|done]]).
    - by rewrite Hperm.
    - by rewrite <- Hperm. }
  assert (_group_controllers r2 = _group_controllers r1) as Hcontrollers.
  { apply map_eq. intros t.
    destruct (decide (Exists (λ p, t ∈ IGroupForm.group_types p) gs)) as [Hex|Hno].
    - apply Exists_exists in Hex as (p & Hp & Ht).
      destruct (Hdeclared1 p t Hp Ht) as [_ ->].
      assert (p ∈ gs') as Hp' by (by rewrite <- Hperm).
      by destruct (Hdeclared2 p t Hp' Ht) as [_ ->].
    - rewrite Exists_exists in Hno. rewrite Hother1, Hother2; [done| |].
      + intros p Hp Ht. apply Hno. exists p. split; [by rewrite Hperm|done].
      + intros p Hp Ht. apply Hno. by exists p. }
  destruct (register_group_plugins_fallbacks_core gs r r1 Hrun) as (Hg1 & Ho1 & Hlog1).
  destruct (register_group_plugins_fallbacks_core gs' r r2 Hrun') as (Hg2 & Ho2 & Hlog2).
  rewrite Hsameg in Hg2, Hlog2. rewrite Hsameo in Ho2, Hlog2.
  pose proof (register_group_plugins_frame_core gs r) as Hframe1.
  pose proof (register_group_plugins_frame_core gs' r) as Hframe2.
  rewrite Hrun in Hframe1. rewrite Hrun' in Hframe2. simpl in Hframe1, Hframe2.
  destruct Hframe1 as (_ & Hpp1 & Hdp1 & Hbp1).
  destruct Hframe2 as (_ & Hpp2 & Hdp2 & Hbp2).
  destruct r1, r2. simpl in *. congruence.
Qed.

Lemma register_group_plugins_order_witness :
  register_group_plugins [organization_f; group_b; group_f1] initial =
  (Return tt, snd (register_group_plugins [group_b; group_f1; organization_f] initial)).
Proof.
  apply (register_group_plugins_order [group_b; group_f1; organization_f]).
  - apply (Permutation_app_comm [group_b; group_f1] [organization_f]).
  - vm_compute. lia.
  - vm_compute. lia.
  - vm_compute. reflexivity.
Defined.

(** ** The default fallbacks, again *)

Lemma set_default_package_plugin_eq r :
  set_default_package_plugin r =
  (Return tt,
   match _default_package_plugin r with
   | None => write_default_package_plugin (Some DefaultDatasetForm)
               (log_constructed cls_DefaultDatasetForm r)
   | Some _ => r
   end).
Proof.
  unfold set_default_package_plugin, bind, gets. by destruct (_default_package_plugin r).
Qed.

Lemma registry_eq r1 r2 :
  _package_plugins r1 = _package_plugins r2 →
  _default_package_plugin r1 = _default_package_plugin r2 →
  _group_plugins r1 = _group_plugins r2 →
  _default_group_plugin r1 = _default_group_plugin r2 →
  _default_organization_plugin r1 = _default_organization_plugin r2 →
  _group_controllers r1 = _group_controllers r2 →
  _group_blueprints r1 = _group_blueprints r2 →
  constructed r1 = constructed r2 →
  r1 = r2.
Proof. destruct r1, r2. simpl. by intros -> -> -> -> -> -> -> ->. Qed.

Lemma with_default_group_plugins_idempotent r :
  with_default_group_plugins (with_default_group_plugins r) = with_default_group_plugins r.
Proof.
  set (r1 := with_default_group_plugins r).
  destruct (with_default_group_plugins_fields r) as (Hgp & Hg & Ho & Hctl & Hpp & Hdp & Hbp).
  destruct (with_default_group_plugins_fields r1) as (Hgp' & Hg' & Ho' & Hctl' & Hpp' & Hdp' & Hbp').
  fold r1 in Hgp, Hg, Ho, Hctl, Hpp, Hdp, Hbp.
  apply registry_eq; try done.
  - by rewrite Hg', Hg.
  - by rewrite Ho', Ho.
  - apply map_eq. intros t. rewrite Hctl', Hctl.
    destruct (_group_controllers r !! t); [done|]. by repeat case_decide.
  - by rewrite constructed_with_default_group_plugins, Hg, Ho.
Qed.

(** X14: [set_default_package_plugin] and [set_default_group_plugin]
    never raise and never replace what is there: a filled slot keeps its
    form and the controller table keeps its rows.  Calling either a
    second time changes nothing. *)
Theorem set_default_idempotent (r : registry) :
  (∃ r', set_default_package_plugin r = (Return tt, r') ∧
         (∀ form, _default_package_plugin r = Some form →
                  _default_package_plugin r' = Some form) ∧
         set_default_package_plugin r' = (Return tt, r')) ∧
  (∃ r', set_default_group_plugin r = (Return tt, r') ∧
         (∀ form, _default_group_plugin r = Some form →
                  _default_group_plugin r' = Some form) ∧
         (∀ form, _default_organization_plugin r = Some form →
                  _default_organization_plugin r' = Some form) ∧
         _group_controllers r ⊆ _group_controllers r' ∧
         set_default_group_plugin r' = (Return tt, r')).
Proof.
  split.
  - rewrite set_default_package_plugin_eq. eexists. split; [done|]. split.
    + intros form Hform. by rewrite Hform.
    + rewrite set_default_package_plugin_eq. by destruct (_default_package_plugin r) eqn:Hs; simpl; rewrite ?Hs.
  - rewrite set_default_group_plugin_eq. eexists. split; [done|].
    destruct (with_default_group_plugins_fields r) as (_ & Hg & Ho & Hctl & _).
    split; [|split; [|split]].
    + intros form Hform. by rewrite Hg, Hform.
    + intros form Hform. by rewrite Ho, Hform.
    + apply map_subseteq_spec. intros t c Hrow. by rewrite Hctl, Hrow.
    + by rewrite set_default_group_plugin_eq, with_default_group_plugins_idempotent.
Qed.
(** ** What holds of every registry the module can reach *)

Lemma for_in_preserves {A} (I : registry → Prop) (body : A → M unit) xs :
  (∀ x r, I r → I (snd (body x r))) → ∀ r, I r → I (snd (for_in xs body r)).
Proof.
  intros Hbody. induction xs as [|x xs IH]; intros r Hr; [done|].
  rewrite for_in_cons. specialize (Hbody x r Hr).
  destruct (body x r) as [[[]|e] r1]; [by apply IH|done].
Qed.

Lemma consistent_initial : consistent initial.
Proof. split; try done; intros t x Hrow; by rewrite lookup_empty in Hrow. Qed.

Lemma consistent_dataset_step h pre r :
  (∀ x, x ∈ pre → x ∈ IDatasetForm.package_types h) →
  consistent r →
  consistent (write_package_plugins (insert_all pre (DatasetPlugin h) (_package_plugins r))
                (dataset_claim h r)).
Proof.
  intros Hpre [Hrows Hslot Hgroups Hg Ho Hctl Hbp].
  assert (∀ x, _default_package_plugin (dataset_claim h r) = Some x →
               x = DefaultDatasetForm ∨
               ∃ p, x = DatasetPlugin p ∧ IDatasetForm.is_fallback p = true) as Hslot'.
  { unfold dataset_claim. destruct (IDatasetForm.is_fallback h) eqn:Hfb; [|done].
    intros x [= <-]. right. by exists h. }
  assert (_group_plugins (dataset_claim h r) = _group_plugins r ∧
          _group_controllers (dataset_claim h r) = _group_controllers r ∧
          _default_group_plugin (dataset_claim h r) = _default_group_plugin r ∧
          _default_organization_plugin (dataset_claim h r) = _default_organization_plugin r ∧
          _group_blueprints (dataset_claim h r) = _group_blueprints r)
    as (Hgp & Hgc & Hdg & Hdo & Hbp').
  { unfold dataset_claim. by destruct (IDatasetForm.is_fallback h). }
  split; simpl; rewrite ?Hgp, ?Hgc, ?Hdg, ?Hdo, ?Hbp'; try done.
  intros t x Hrow. rewrite lookup_insert_all in Hrow. case_decide.
  - simplify_eq. exists h. auto.
  - by apply Hrows.
Qed.

Lemma consistent_register_package_plugin h r :
  consistent r → consistent (snd (register_package_plugin h r)).
Proof.
  intros Hr.
  destruct (register_package_plugin_cases h r)
    as [[_ ->]|[(_ & _ & _ & ->)|(_ & pre & t & post & Hsplit & _ & _ & _ & ->)]]; simpl.
  - done.
  - by apply consistent_dataset_step.
  - apply consistent_dataset_step; [|done]. intros x Hx. rewrite Hsplit. set_solver.
Qed.

Lemma consistent_set_default_package_plugin r :
  consistent r → consistent (snd (set_default_package_plugin r)).
Proof.
  intros [Hrows Hslot Hgroups Hg Ho Hctl Hbp]. rewrite set_default_package_plugin_eq. simpl.
  destruct (_default_package_plugin r) eqn:Hs; [by split; rewrite ?Hs|].
  split; simpl; try done. intros x [= <-]. by left.
Qed.

Lemma consistent_group_step h pre r :
  (∀ x, x ∈ pre → x ∈ IGroupForm.group_types h) →
  consistent r →
  consistent
    (write_group_controllers (insert_all pre (group_controller_of h) (_group_controllers r))
       (write_group_plugins (insert_all pre (GroupPlugin h) (_group_plugins r))
          (group_claim h r))).
Proof.
  intros Hpre [Hrows Hslot Hgroups Hg Ho Hctl Hbp].
  assert (∀ x, _default_group_plugin (group_claim h r) = Some x →
               x = DefaultGroupForm ∨
               ∃ p, x = GroupPlugin p ∧ IGroupForm.is_fallback p = true ∧
                    is_organization_of p = false) as Hg'.
  { unfold group_claim.
    destruct (IGroupForm.is_fallback h) eqn:Hfb, (is_organization_of h) eqn:Horg; try done.
    intros x [= <-]. right. by exists h. }
  assert (∀ x, _default_organization_plugin (group_claim h r) = Some x →
               x = DefaultOrganizationForm ∨
               ∃ p, x = GroupPlugin p ∧ IGroupForm.is_fallback p = true ∧
                    is_organization_of p = true) as Ho'.
  { unfold group_claim.
    destruct (IGroupForm.is_fallback h) eqn:Hfb, (is_organization_of h) eqn:Horg; try done.
    intros x [= <-]. right. by exists h. }
  assert (_package_plugins (group_claim h r) = _package_plugins r ∧
          _default_package_plugin (group_claim h r) = _default_package_plugin r ∧
          _group_blueprints (group_claim h r) = _group_blueprints r) as (Hpp & Hdp & Hbp').
  { unfold group_claim. by destruct (IGroupForm.is_fallback h), (is_organization_of h). }
  split; simpl; rewrite ?Hpp, ?Hdp, ?Hbp'; try done.
  - intros t x Hrow. rewrite lookup_insert_all in Hrow. case_decide as Hin.
    + simplify_eq. exists h. split; [done|]. split; [by apply Hpre|].
      rewrite lookup_insert_all. by rewrite decide_True.
    + destruct (Hgroups t x Hrow) as (p & -> & Ht & Hc). exists p.
      split; [done|]. split; [done|]. rewrite lookup_insert_all. by rewrite decide_False.
  - intros t c Hrow. rewrite lookup_insert_all in Hrow. rewrite lookup_insert_all.
    case_decide.
    + simplify_eq. left. by exists h.
    + by apply Hctl.
Qed.

Lemma consistent_register_group_plugin h r :
  consistent r → consistent (snd (register_group_plugin h r)).
Proof.
  intros Hr.
  destruct (register_group_plugin_cases h r)
    as [[_ ->]|[(_ & _ & _ & ->)|(_ & pre & t & post & Hsplit & _ & _ & _ & ->)]]; simpl.
  - done.
  - by apply consistent_group_step.
  - apply consistent_group_step; [|done]. intros x Hx. rewrite Hsplit. set_solver.
Qed.

Lemma consistent_set_default_group_plugin r :
  consistent r → consistent (snd (set_default_group_plugin r)).
Proof.
  intros [Hrows Hslot Hgroups Hg Ho Hctl Hbp]. rewrite set_default_group_plugin_eq. simpl.
  destruct (with_default_group_plugins_fields r) as (Hgp & Hg' & Ho' & Hctl' & Hpp & Hdp & Hbp').
  split; rewrite ?Hgp, ?Hg', ?Ho', ?Hpp, ?Hdp, ?Hbp'; try done.
  - intros t x Hrow. destruct (Hgroups t x Hrow) as (p & -> & Ht & Hc).
    exists p. split; [done|]. split; [done|]. by rewrite Hctl', Hc.
  - intros x [= <-]. destruct (_default_group_plugin r); simpl; [by apply Hg|by left].
  - intros x [= <-]. destruct (_default_organization_plugin r); simpl; [by apply Ho|by left].
  - intros t c. rewrite Hctl'. destruct (_group_controllers r !! t) eqn:Hrow.
    + intros [= <-]. by apply Hctl.
    + intros Hnew. right.
      assert (_group_plugins r !! t = None) as Hnone.
      { destruct (_group_plugins r !! t) as [x|] eqn:Hx; [|done].
        destruct (Hgroups t x Hx) as (p & _ & _ & Hc). congruence. }
      split; [done|]. repeat case_decide; naive_solver.
Qed.

Lemma consistent_run op r : consistent r → consistent (snd (run op r)).
Proof.
  intros Hr. destruct op as [| |ps|gs| |]; simpl.
  - destruct Hr as [Hrows Hslot Hgroups Hg Ho Hctl Hbp]. split; simpl; try done;
      try (intros t x Hrow; by rewrite lookup_empty in Hrow).
  - destruct Hr as [Hrows Hslot Hgroups Hg Ho Hctl Hbp]. split; simpl; try done;
      try (intros t x Hrow; by rewrite lookup_empty in Hrow).
  - rewrite register_package_plugins_eq.
    pose proof (for_in_preserves consistent register_package_plugin ps
                  consistent_register_package_plugin r Hr) as Hloop.
    destruct (for_in ps register_package_plugin r) as [[[]|e] r1]; [|done].
    pose proof (consistent_set_default_package_plugin r1 Hloop) as Hdefault.
    by rewrite set_default_package_plugin_eq in Hdefault.
  - rewrite register_group_plugins_eq.
    pose proof (for_in_preserves consistent register_group_plugin gs
                  consistent_register_group_plugin r Hr) as Hloop.
    destruct (for_in gs register_group_plugin r) as [[[]|e] r1]; [|done].
    by apply consistent_set_default_group_plugin.
  - by apply consistent_set_default_package_plugin.
  - by apply consistent_set_default_group_plugin.
Qed.

Lemma reachable_is_consistent r : reachable r → consistent r.
Proof.
  induction 1 as [|op r _ IH]; [apply consistent_initial|by apply consistent_run].
Qed.

(** X15: in every registry that calls of the module's functions lead
    to, whether they returned or raised: a row of a type table maps the
    type to a plugin that declares it (never to a default instance), and
    a group type with a row is bound to the controller name of the plugin
    of that row; a fallback slot holds nothing, the default instance of
    its axis, or a plugin that claims the fallback of that axis; a type
    that is bound to a controller name either has a row in the group
    table, and the name is that of the plugin of the row, or has no row,
    is ["group"] or ["organization"], and is bound to its own name; and
    no blueprint is ever stored. *)
Theorem reachable_consistent (r : registry) : reachable r → consistent r.
Proof. apply reachable_is_consistent. Qed.

(** The invariant does exclude registries: one that binds a type with
    no row to a controller name, and one whose row and controller name
    disagree. *)
Example stray_controller_is_not_consistent :
  ¬ consistent (write_group_controllers {["alpha" := "organization"]} initial).
Proof.
  intros [_ _ _ _ _ Hctl _].
  destruct (Hctl "alpha" "organization") as [(p & Hrow & _)|(_ & Hname & _)]; done.
Qed.

Example wrong_controller_is_not_consistent :
  ¬ consistent (write_group_controllers {["alpha" := "organization"]}
                  (write_group_plugins {["alpha" := GroupPlugin group_a]} initial)).
Proof.
  intros [_ _ Hgroups _ _ _ _].
  destruct (Hgroups "alpha" (GroupPlugin group_a)) as (p & [= <-] & _ & Hc); done.
Qed.

Lemma reachable_consistent_witness :
  consistent (snd (run (call_register_group_plugins [group_a; group_b])
                     (snd (run (call_register_package_plugins [dataset_a]) initial)))).
Proof.
  apply reachable_consistent. apply reachable_step, reachable_step, reachable_initial.
Defined.

(** X16: in every such registry a lookup of a group type that has a row
    returns a plugin that declares the type, and [lookup_group_controller]
    returns the controller name of that same plugin; and
    [lookup_group_blueprints] returns nothing, whatever the type. *)
Theorem reachable_lookups_agree (r : registry) :
  reachable r →
  (∀ t x, _group_plugins r !! t = Some x →
     ∃ p, t ∈ IGroupForm.group_types p ∧
          lookup_group_plugin (Some t) r = (Return (Some (GroupPlugin p)), r) ∧
          lookup_group_controller (Some t) r = (Return (Some (group_controller_of p)), r)) ∧
  (∀ t, lookup_group_blueprints t r = (Return None, r)).
Proof.
  intros [Hrows Hslot Hgroups Hg Ho Hctl Hbp]%reachable_is_consistent. split.
  - intros t x Hrow. destruct (Hgroups t x Hrow) as (p & -> & Ht & Hc).
    exists p. split; [done|]. by rewrite lookup_group_plugin_eq, lookup_group_controller_eq, Hrow, Hc.
  - intros [t|]; [|done]. unfold lookup_group_blueprints, bind, gets, ret.
    by rewrite Hbp, lookup_empty.
Qed.

Lemma reachable_lookups_agree_witness :
  lookup_group_blueprints (Some "beta")
    (snd (run (call_register_group_plugins [group_b]) initial)) =
  (Return None, snd (run (call_register_group_plugins [group_b]) initial)).
Proof.
  apply (reachable_lookups_agree (snd (run (call_register_group_plugins [group_b]) initial))).
  apply reachable_step, reachable_initial.
Defined.

(** * Further properties of the permission labels *)

Ltac label_equations :=
  repeat match goal with
         | H : String.append _ _ = _ |- _ => progress simpl in H
         | H : _ = String.append _ _ |- _ => progress simpl in H
         end;
  simplify_eq.

(** X17: a dataset that is active and not private shares a label with
    every actor; and with the anonymous actor only such a dataset shares
    a label. *)
Theorem anonymous_sees_exactly_public (ckan : site) (d : Package.t) :
  (is_public d →
   ∀ actor, labels_intersect (get_dataset_labels ckan d) (get_user_dataset_labels ckan actor)) ∧
  (labels_intersect (get_dataset_labels ckan d) (get_user_dataset_labels ckan None) →
   is_public d).
Proof.
  split.
  - intros Hpub actor. exists "public". split.
    + apply elem_of_dataset_labels. auto.
    + destruct actor; [apply elem_of_user_labels; auto|by apply list_elem_of_singleton].
  - intros (label & Hd & Hu). apply list_elem_of_singleton in Hu. subst label.
    apply elem_of_dataset_labels in Hd.
    destruct Hd as [[Hpub _]|[_ [[_ ?]|[(org & _ & ?)|[_ ?]]]]]; [done|..];
      label_equations.
Qed.

Lemma anonymous_sees_exactly_public_witness :
  labels_intersect (get_dataset_labels plain_site public_dataset)
                   (get_user_dataset_labels plain_site (Some user_u1)).
Proof.
  apply (proj1 (anonymous_sees_exactly_public plain_site public_dataset)).
  split; reflexivity.
Defined.

(** X18: switching the collaborator feature on only adds labels, to a
    dataset and to an actor; the pairs of a dataset and an actor that
    share a label with the feature on are those that share one with the
    feature off and, in addition, the datasets that are not public
    together with their collaborators. *)
Theorem collaborators_only_add (ckan : site) (d : Package.t) (actor : option User.t) :
  get_dataset_labels (with_collaborators false ckan) d ⊆
    get_dataset_labels (with_collaborators true ckan) d ∧
  get_user_dataset_labels (with_collaborators false ckan) actor ⊆
    get_user_dataset_labels (with_collaborators true ckan) actor ∧
  (labels_intersect (get_dataset_labels (with_collaborators true ckan) d)
                    (get_user_dataset_labels (with_collaborators true ckan) actor) ↔
   labels_intersect (get_dataset_labels (with_collaborators false ckan) d)
                    (get_user_dataset_labels (with_collaborators false ckan) actor) ∨
   (¬ is_public d ∧
    ∃ u, actor = Some u ∧
         Package.id d ∈ package_collaborator_list_for_user ckan (User.id u))).
Proof.
  assert (get_dataset_labels (with_collaborators false ckan) d ⊆
          get_dataset_labels (with_collaborators true ckan) d) as Hd.
  { intros label. rewrite !elem_of_dataset_labels. simpl. naive_solver. }
  assert (get_user_dataset_labels (with_collaborators false ckan) actor ⊆
          get_user_dataset_labels (with_collaborators true ckan) actor) as Hu.
  { intros label. destruct actor as [u|]; [|done].
    rewrite !elem_of_user_labels. simpl. naive_solver. }
  split; [done|]. split; [done|]. split.
  - intros (label & Hld & Hlu).
    apply elem_of_dataset_labels in Hld. simpl in Hld.
    destruct Hld as [[Hpub ->]|[Hpriv Hld]].
    { left. exists "public". split; [apply elem_of_dataset_labels; auto|].
      destruct actor; [apply elem_of_user_labels; auto|by apply list_elem_of_singleton]. }
    destruct actor as [u|].
    2:{ apply list_elem_of_singleton in Hlu. subst label.
        destruct Hld as [[_ ?]|[(org & _ & ?)|[_ ?]]]; label_equations. }
    apply elem_of_user_labels in Hlu. simpl in Hlu.
    destruct Hld as [[_ ->]|[(org & Horg & ->)|[Hnone ->]]];
      destruct Hlu as [?|[?|[(org' & Hin & ?)|(_ & ds & Hin & ?)]]];
      label_equations.
    + right. split; [done|]. by exists u.
    + left. exists (String.append "member-" org'). split.
      * apply elem_of_dataset_labels. simpl. naive_solver.
      * apply elem_of_user_labels. simpl. naive_solver.
    + left. exists (String.append "creator-" (User.id u)). split.
      * apply elem_of_dataset_labels. simpl. right. split; [done|]. right; right.
        split; [done|]. by f_equal.
      * apply elem_of_user_labels. simpl. auto.
  - intros [(label & Hld & Hlu)|(Hpriv & u & -> & Hin)].
    + exists label. split; [by apply Hd|by apply Hu].
    + exists (String.append "collaborator-" (Package.id d)). split.
      * apply elem_of_dataset_labels. simpl. naive_solver.
      * apply elem_of_user_labels. simpl. naive_solver.
Qed.

(** * [DefaultTranslation]: the module of an extension *)

Lemma split_nonempty sep s : str_split sep s ≠ [].
Proof.
  destruct s as [|c s]; simpl; [done|].
  destruct (Ascii.eqb c sep); [done|]. by destruct (str_split sep s).
Qed.

Lemma join_cons_String sep c piece pieces :
  str_join sep (String c piece :: pieces) = String c (str_join sep (piece :: pieces)).
Proof. by destruct pieces. Qed.

Lemma join_cons_cons sep piece piece' pieces :
  str_join sep (piece :: piece' :: pieces) =
  String.append piece (String.append sep (str_join sep (piece' :: pieces))).
Proof. reflexivity. Qed.

Lemma join_split sep s : str_join (String sep EmptyString) (str_split sep s) = s.
Proof.
  induction s as [|c s IH]; [done|]. cbn [str_split].
  pose proof (split_nonempty sep s) as Hnonempty.
  destruct (str_split sep s) as [|piece pieces]; [done|].
  destruct (Ascii.eqb_spec c sep) as [->|Hne].
  - rewrite join_cons_cons, IH. reflexivity.
  - by rewrite join_cons_String, IH.
Qed.

Lemma split_pieces sep s : Forall (λ piece, occurs sep piece = false) (str_split sep s).
Proof.
  induction s as [|c s IH]; simpl; [by repeat constructor|].
  destruct (Ascii.eqb c sep) eqn:Hc; [by constructor|].
  destruct (str_split sep s) as [|piece pieces]; [repeat constructor; simpl; by rewrite Hc|].
  apply Forall_cons in IH as [Hpiece Hpieces]. constructor; [|done].
  simpl. by rewrite Hc.
Qed.

Lemma split_app sep piece s :
  occurs sep piece = false →
  str_split sep (String.append piece (String sep s)) = piece :: str_split sep s.
Proof.
  induction piece as [|c piece IH]; simpl.
  - intros _. by rewrite Ascii.eqb_refl.
  - intros [Hc Hpiece]%orb_false_iff. by rewrite Hc, IH.
Qed.

Lemma split_sep_free sep piece : occurs sep piece = false → str_split sep piece = [piece].
Proof.
  induction piece as [|c piece IH]; simpl; [done|].
  intros [Hc Hpiece]%orb_false_iff. by rewrite Hc, IH.
Qed.

Lemma split_join sep pieces :
  pieces ≠ [] → Forall (λ piece, occurs sep piece = false) pieces →
  str_split sep (str_join (String sep EmptyString) pieces) = pieces.
Proof.
  induction pieces as [|piece pieces IH]; [done|]. intros _ [Hpiece Hpieces]%Forall_cons.
  destruct pieces as [|piece' pieces]; [by apply split_sep_free|].
  rewrite join_cons_cons. change (String.append (String sep EmptyString) ?s) with (String sep s).
  rewrite split_app by done. by rewrite IH.
Qed.

Lemma append_String c s1 s2 :
  String.append (String c s1) s2 = String c (String.append s1 s2).
Proof. reflexivity. Qed.

Lemma append_empty s : String.append s EmptyString = s.
Proof. induction s as [|c s IH]; [done|]. by rewrite append_String, IH. Qed.

Lemma append_append s1 s2 s3 :
  String.append (String.append s1 s2) s3 = String.append s1 (String.append s2 s3).
Proof. induction s1 as [|c s1 IH]; [done|]. by rewrite !append_String, IH. Qed.

Lemma join_take sep pieces n :
  ∃ rest, str_join sep pieces = String.append (str_join sep (take n pieces)) rest.
Proof.
  revert n. induction pieces as [|piece pieces IH]; intros n.
  { exists EmptyString. by rewrite take_nil. }
  destruct n as [|n]; [by eexists|].
  destruct pieces as [|piece' pieces].
  { exists EmptyString. rewrite firstn_cons, take_nil. cbn [str_join].
    by rewrite append_empty. }
  destruct (IH n) as [rest Hrest].
  destruct n as [|n].
  { rewrite join_cons_cons. by eexists. }
  exists rest. rewrite !firstn_cons in *. rewrite !join_cons_cons, Hrest.
  by rewrite !append_append.
Qed.

(** X19: the module that [i18n_directory] looks up is made of the first
    three components of the name of the plugin's module: it is a prefix
    of that name, it is the whole name when the name has at most three
    components, it has at most three components itself, and taking it
    twice gives nothing new.  So a plugin class defined anywhere below
    an extension's package gets the directory of that package. *)
Theorem extension_module_name_prefix (module_name : string) :
  (∃ rest, module_name = String.append (extension_module_name module_name) rest) ∧
  (length (str_split dot module_name) ≤ 3 → extension_module_name module_name = module_name) ∧
  length (str_split dot (extension_module_name module_name)) ≤ 3 ∧
  extension_module_name (extension_module_name module_name) =
    extension_module_name module_name ∧
  ∀ sys_modules dirname path_join,
    i18n_directory sys_modules dirname path_join (extension_module_name module_name) =
    i18n_directory sys_modules dirname path_join module_name.
Proof.
  unfold extension_module_name, i18n_directory.
  assert (str_split dot (str_join "." (take 3 (str_split dot module_name))) =
          take 3 (str_split dot module_name)) as Hsplit.
  { apply (split_join dot).
    - pose proof (split_nonempty dot module_name).
      by destruct (str_split dot module_name).
    - apply Forall_take, split_pieces. }
  split; [|split; [|split; [|split]]].
  - destruct (join_take "." (str_split dot module_name) 3) as [rest Hrest].
    exists rest. rewrite <- Hrest. by rewrite (join_split dot).
  - intros Hshort. rewrite take_ge by done. apply (join_split dot).
  - rewrite Hsplit, length_take. lia.
  - by rewrite Hsplit, take_take.
  - intros sys_modules dirname path_join. unfold extension_module_name.
    by rewrite Hsplit, take_take.
Qed.

Lemma extension_module_name_prefix_witness :
  extension_module_name "ckanext.spatial.plugin" = "ckanext.spatial.plugin" ∧
  extension_module_name "ckanext.spatial.harvesters.base" = "ckanext.spatial.harvesters".
Proof.
  split; [|reflexivity].
  apply (proj1 (proj2 (extension_module_name_prefix "ckanext.spatial.plugin"))).
  vm_compute. lia.
Defined.
